(** * Spiral flight planner and mission executor

    A shallow embedding of

    - [generate_spiral_csv.py]: the samplers that turn the rise, the holds,
      the spiral and the moves into waypoints, and the CSV export;
    - [rainbow_spiral_offboard_from_csv.py]: the rainbow colour interpolation
      and the [run] coroutine that flies the waypoints.

    Python's [float] is IEEE-754 binary64; it is modelled by Rocq's primitive
    floats, which are the same format with the same rounding, so the
    definitions below compute what the scripts compute.  The library calls
    [math.cos], [math.sin] and [math.dist] and the built-ins [float(str)],
    [int(str)] and the number formatting of [csv.writer] are parameters.
    Where the scripts write an integer among floats (the origin [(0,0,0)],
    [turns = 3], the colours of [mode_colors]) the model has the float of
    the same value; the two differ only in the text [csv.writer] prints.

    The [run] coroutine is a computation in a trace monad: every awaited
    device command, every printed line and every sleep is appended to a
    trace, and a command may raise.  The vehicle is a parameter: what each
    command does may depend on everything that happened before.

    The file has the model first (modules [Py], [Sampler], [Executor]),
    then facts of binary64 arithmetic derived from its bit-level
    specification ([Binary64]), then the properties of the two scripts
    ([SamplerFacts], [ExecutorFacts]). *)

From stdpp Require Import base gmap strings list pretty.
From Stdlib Require Import ZArith Lia Bool Floats Ascii.
From Stdlib Require Uint63.
Set Warnings "-inexact-float".

(** ** Python values, exceptions and arithmetic *)
Module Py.

Inductive key := KStr (s : string) | KInt (z : Z).

(** The exceptions the two scripts can meet.  [OffboardError], [LightsError]
    and [ActionError] are the device library's, each with its result code;
    [RpcError] stands for any other exception a device call raises. *)
Inductive exn :=
| ZeroDivisionError
| ValueError
| OverflowError
| IndexError
| KeyError (k : key)
| OSError
| OffboardError (code : Z)
| LightsError (code : Z)
| ActionError (code : Z)
| RpcError (code : Z).

Inductive res (A : Type) := Ok (a : A) | Raise (e : exn).
Arguments Ok {A} a.
Arguments Raise {A} e.

Global Instance res_ret : MRet res := fun A x => Ok x.
Global Instance res_bind : MBind res :=
  fun A B f m => match m with Ok a => f a | Raise e => Raise e end.

(** [int(x)] for a float: truncation toward zero; [nan] and the infinities
    raise. *)
Definition SF_int (x : spec_float) : res Z :=
  match x with
  | S754_nan => Raise ValueError
  | S754_infinity _ => Raise OverflowError
  | S754_zero _ => Ok 0%Z
  | S754_finite s m e =>
      Ok (cond_Zopp s (if (0 <=? e)%Z then Zpos m * 2 ^ e else Zpos m / 2 ^ (- e)))%Z
  end.

Definition py_int (x : float) : res Z := SF_int (Prim2SF x).

(** [float(n)] for an integer below 2^63 in magnitude (correctly rounded). *)
Definition Z2F (z : Z) : float :=
  if (0 <=? z)%Z then of_uint63 (Uint63.of_Z z)
  else (- of_uint63 (Uint63.of_Z (- z)))%float.

(** [x / y] on floats: a zero divisor raises. *)
Definition py_fdiv (x y : float) : res float :=
  if (y =? 0)%float then Raise ZeroDivisionError else Ok (x / y)%float.

(** [a / b] on integers (true division).  CPython converts both operands
    and divides the doubles when each fits in 53 bits, which is the case for
    every counter and length of the scripts. *)
Definition py_truediv (a b : Z) : res float :=
  if (b =? 0)%Z then Raise ZeroDivisionError else Ok (Z2F a / Z2F b)%float.

(** [x >= y] on floats. *)
Definition py_ge (x y : float) : bool := (y <=? x)%float.
(** [x > y] on floats. *)
Definition py_gt (x y : float) : bool := (y <? x)%float.

(** [range(n)]. *)
Definition py_range (n : Z) : list Z := Z.of_nat <$> seq 0 (Z.to_nat n).

(** [l[i]] on a list: a negative index counts from the end. *)
Definition py_index {A} (l : list A) (i : Z) : res A :=
  let n := Z.of_nat (length l) in
  let j := if (i <? 0)%Z then (i + n)%Z else i in
  if (j <? 0)%Z then Raise IndexError
  else match l !! Z.to_nat j with Some x => Ok x | None => Raise IndexError end.

(** [d[k]] on a dict. *)
Definition py_getitem {K} `{Countable K} {V} (inj : K -> key) (d : gmap K V) (k : K) : res V :=
  match d !! k with Some v => Ok v | None => Raise (KeyError (inj k)) end.

(** [max(a, b, c)] on floats, as the built-in compares. *)
Definition py_max3 (a b c : float) : float :=
  let m := if py_gt b a then b else a in
  if py_gt c m then c else m.

End Py.
Import Py.

(** ** [generate_spiral_csv.py] *)
Module Sampler.

Local Open Scope float_scope.

Definition point : Type := float * float * float.

(** The CONFIG block.  [turns] is the integer 3 in the script and is used
    only in float arithmetic. *)
Record Config := {
  h_start : float;
  spiral_height : float;
  turns : float;
  start_radius : float;
  end_radius : float;
  spacing : float;
  move_spacing : float;
  start_angle : float;
  hold_time : float;
  time_step : float;
}.

Definition default_config : Config := {|
  h_start := 15.0;
  spiral_height := 10.0;
  turns := 3;
  start_radius := 10.0;
  end_radius := 0.0;
  spacing := 0.03;
  move_spacing := 0.1;
  start_angle := 0.0;
  hold_time := 2.0;
  time_step := 0.1;
|}.

Definition math_pi : float := 0x1.921fb54442d18p+1.

(** How [generate_spiral] came to return. *)
Inductive spiral_exit :=
| CandidateBeyond (cand_t : float)
| GuardFailed
| Raised (e : exn).

(** The [k]-th increment an inner search tries. *)
Definition growth (k : nat) : float := Nat.iter k (fun d => d * 1.5)%float 0.0001%float.

Section WithLibm.

(** [math.cos], [math.sin] (on finite arguments and [nan]) and
    [math.dist]. *)
Variables math_cos math_sin : float -> float.
Variable math_dist : point -> point -> float.
Variable cfg : Config.

(** [math.cos(x)]: an infinite argument is a domain error. *)
Definition py_cos (x : float) : res float :=
  if is_infinity x then Raise ValueError else Ok (math_cos x).
Definition py_sin (x : float) : res float :=
  if is_infinity x then Raise ValueError else Ok (math_sin x).

Definition spiral_position (t : float) : res point :=
  let r := (1 - t) * start_radius cfg + t * end_radius cfg in
  let th := (- (2 * math_pi * turns cfg)) * t + start_angle cfg in
  c ← py_cos th;
  s ← py_sin th;
  Ok (r * c, r * s, h_start cfg + spiral_height cfg * t).

Definition dist (a b : point) : float := math_dist a b.

(** The body of [for i in range(steps + 1)] in [generate_move_points]. *)
Definition move_point (p0 p1 : point) (steps i : Z) : res point :=
  t ← py_truediv i steps;
  let x := p0.1.1 + (p1.1.1 - p0.1.1) * t in
  let y := p0.1.2 + (p1.1.2 - p0.1.2) * t in
  let z := p0.2 + (p1.2 - p0.2) * t in
  Ok (x, y, z).

Fixpoint move_loop (p0 p1 : point) (steps : Z) (idxs : list Z) : res (list point) :=
  match idxs with
  | [] => Ok []
  | i :: rest =>
      p ← move_point p0 p1 steps i;
      pts ← move_loop p0 p1 steps rest;
      Ok (p :: pts)
  end.

Definition generate_move_points (p0 p1 : point) (step_dist : float) : res (list point) :=
  let total := dist p0 p1 in
  if total =? 0 then Ok [p0]
  else
    q ← py_fdiv total step_dist;
    steps ← py_int q;
    move_loop p0 p1 steps (py_range (steps + 1)).

(** The two nested [while] loops of [generate_spiral], one unit of fuel
    per candidate tried.  [None] is "out of fuel". *)
Fixpoint spiral_loop (fuel : nat) (pts : list point) (t : float) (prev : point)
         (dt : float) : option (res (list point)) :=
  match fuel with
  | O => None
  | S fuel' =>
      let cand_t := t + dt in
      if py_gt cand_t 1.0 then Some (Ok pts)
      else
        match spiral_position cand_t with
        | Raise e => Some (Raise e)
        | Ok cand =>
            if py_ge (dist prev cand) (spacing cfg) then
              let pts' := pts ++ [cand] in
              if cand_t <? 1.0 then spiral_loop fuel' pts' cand_t cand 0.0001
              else Some (Ok pts')
            else spiral_loop fuel' pts t prev (dt * 1.5)
        end
  end.

Definition generate_spiral (fuel : nat) : option (res (list point)) :=
  match spiral_position 0.0 with
  | Raise e => Some (Raise e)
  | Ok prev =>
      if 0.0 <? 1.0 then spiral_loop fuel [prev] 0.0 prev 0.0001
      else Some (Ok [prev])
  end.

Definition hold_points (p : point) (seconds : float) : res (list point) :=
  q ← py_fdiv seconds (time_step cfg);
  count ← py_int q;
  Ok (replicate (Z.to_nat count) p).

(** [spiral_loop] with its bookkeeping kept: every accepted point with the
    parameter it was evaluated at, and the way the loops were left. *)
Fixpoint spiral_walk (fuel : nat) (acc : list (float * point)) (t : float) (prev : point)
         (dt : float) : option (list (float * point) * spiral_exit) :=
  match fuel with
  | O => None
  | S fuel' =>
      let cand_t := (t + dt)%float in
      if py_gt cand_t 1.0 then Some (acc, CandidateBeyond cand_t)
      else
        match spiral_position cand_t with
        | Raise e => Some (acc, Raised e)
        | Ok cand =>
            if py_ge (dist prev cand) (spacing cfg) then
              let acc' := acc ++ [(cand_t, cand)] in
              if (cand_t <? 1.0)%float then spiral_walk fuel' acc' cand_t cand 0.0001%float
              else Some (acc', GuardFailed)
            else spiral_walk fuel' acc t prev (dt * 1.5)%float
        end
  end.

Definition generate_spiral_walk (fuel : nat) : option (list (float * point) * spiral_exit) :=
  match spiral_position 0.0 with
  | Raise e => Some ([], Raised e)
  | Ok prev =>
      if (0.0 <? 1.0)%float then spiral_walk fuel [(0.0%float, prev)] 0.0 prev 0.0001
      else Some ([(0.0%float, prev)], GuardFailed)
  end.

(** What [generate_spiral] hands back at the end of a walk. *)
Definition walk_result (w : list (float * point) * spiral_exit) : res (list point) :=
  match w.2 with
  | Raised e => Raise e
  | _ => Ok (w.1.*2)
  end.

(** Consecutive points are at least [spacing] apart, as the code compares. *)
Definition spaced (pts : list point) : Prop :=
  forall i p q, pts !! i = Some p -> pts !! S i = Some q ->
    py_ge (dist p q) (spacing cfg) = true.

(** Every accepted point is the curve at its parameter, which is at most 1. *)
Definition on_curve (tp : float * point) : Prop :=
  (tp.1 <=? 1)%float = true /\ spiral_position tp.1 = Ok tp.2.

(** Each accepted parameter is the one before plus a seed grown by 1.5. *)
Definition grown (acc : list (float * point)) : Prop :=
  forall i tp tq, acc !! i = Some tp -> acc !! S i = Some tq ->
    (tp.1 <? tq.1)%float = true /\ exists k, tq.1 = (tp.1 + growth k)%float.

Definition exit_ok (acc : list (float * point)) (ex : spiral_exit) : Prop :=
  match ex with
  | CandidateBeyond c =>
      (1 <? c)%float = true /\
      exists tp k, last acc = Some tp /\ c = (tp.1 + growth k)%float
  | GuardFailed => exists tp, last acc = Some tp /\ (tp.1 =? 1)%float = true
  | Raised _ => True
  end.

End WithLibm.

Definition color : Type := float * float * float.

Definition mode_colors : gmap Z color :=
  list_to_map
    [ (10%Z, (1, 0, 0)); (20%Z, (1, 0.5, 0)); (30%Z, (0, 1, 0)); (40%Z, (0, 1, 1));
      (50%Z, (0, 0, 1)); (60%Z, (0.5, 0, 0.5)); (70%Z, (0, 0, 0)) ].

Definition segment : Type := list point * Z.

Section Trajectory.

Variables math_cos math_sin : float -> float.
Variable math_dist : point -> point -> float.
Variable cfg : Config.

Let move := generate_move_points math_dist.
Let hold := hold_points cfg.

(** The "Build trajectory per mode" block.  [spiral_pts[0]] and
    [spiral_pts[-1]] are list indexing. *)
Definition build_trajectory (fuel : nat) : option (res (list segment)) :=
  let home : point := (0, 0, h_start cfg) in
  match move (0, 0, 0) home (move_spacing cfg) with
  | Raise e => Some (Raise e)
  | Ok rise =>
  match hold home (hold_time cfg) with
  | Raise e => Some (Raise e)
  | Ok h20 =>
  match generate_spiral math_cos math_sin math_dist cfg fuel with
  | None => None
  | Some (Raise e) => Some (Raise e)
  | Some (Ok spiral_pts) =>
      Some (start_pt ← py_index spiral_pts 0;
            m30 ← move home start_pt (move_spacing cfg);
            h40 ← hold start_pt (hold_time cfg);
            end_pt ← py_index spiral_pts (-1);
            h60 ← hold end_pt (hold_time cfg);
            m70 ← move end_pt home (move_spacing cfg);
            Ok [ (rise, 10%Z); (h20, 20%Z); (m30, 30%Z); (h40, 40%Z);
                 (spiral_pts, 50%Z); (h60, 60%Z); (m70, 70%Z) ])
  end end end.

End Trajectory.

(** The segments that get a curve object: [if len(pts_list) < 2: continue]. *)
Definition rendered (trajectory : list segment) : list segment :=
  filter (fun s => (2 <=? length s.1)%nat = true) trajectory.

(** *** CSV export *)

Definition all_pts (trajectory : list segment) : list point :=
  concat (fst <$> trajectory).
Definition all_modes (trajectory : list segment) : list Z :=
  concat ((fun s => replicate (length s.1) s.2) <$> trajectory).
Fixpoint all_colors (trajectory : list segment) : res (list color) :=
  match trajectory with
  | [] => Ok []
  | s :: rest =>
      col ← py_getitem KInt mode_colors s.2;
      cols ← all_colors rest;
      Ok (replicate (length s.1) col ++ cols)
  end.

Definition csv_header : list string := ["index"; "x"; "y"; "z"; "mode"; "r"; "g"; "b"].

(** One written value: an integer or a float. *)
Inductive cell := CInt (z : Z) | CFloat (x : float).

Fixpoint zip3 {A B C} (a : list A) (b : list B) (c : list C) : list (A * B * C) :=
  match a, b, c with
  | x :: a', y :: b', z :: c' => (x, y, z) :: zip3 a' b' c'
  | _, _, _ => []
  end.

Definition csv_row (i : nat) (pmc : point * Z * color) : list cell :=
  let '(p, m, col) := pmc in
  [ CInt (Z.of_nat i); CFloat p.1.1; CFloat p.1.2; CFloat p.2; CInt m;
    CFloat col.1.1; CFloat col.1.2; CFloat col.2 ].

(** The data rows [w.writerow] writes after the header. *)
Definition export_rows (trajectory : list segment) : res (list (list cell)) :=
  cols ← all_colors trajectory;
  Ok (imap csv_row (zip3 (all_pts trajectory) (all_modes trajectory) cols)).

Section Records.
(** How [csv.writer] prints a value: [str] of an integer, [repr] of a float. *)
Variable str_int : Z -> string.
Variable repr_float : float -> string.

Definition cell_text (c : cell) : string :=
  match c with CInt z => str_int z | CFloat x => repr_float x end.

(** A written row as [csv.DictReader] gives it back: header name to text. *)
Definition record_of (row : list cell) : gmap string string :=
  list_to_map (zip csv_header (cell_text <$> row)).

Definition exported_records (trajectory : list segment) : res (list (gmap string string)) :=
  rows ← export_rows trajectory;
  Ok (map record_of rows).
End Records.

(** *** Reference values and examples *)

(** The point at parameter [t] of the straight line from [p0] to [p1], as
    the loop body of [generate_move_points] computes it. *)
Definition along (p0 p1 : point) (t : float) : point :=
  (p0.1.1 + (p1.1.1 - p0.1.1) * t, p0.1.2 + (p1.1.2 - p0.1.2) * t,
   p0.2 + (p1.2 - p0.2) * t)%float.

(** [math.dist] on the examples: the square root of the sum of the squared
    differences, which is exact when the points differ in one coordinate. *)
Definition euclid (a b : point) : float :=
  (sqrt ((a.1.1 - b.1.1) * (a.1.1 - b.1.1) + (a.1.2 - b.1.2) * (a.1.2 - b.1.2)
         + (a.2 - b.2) * (a.2 - b.2)))%float.

(** A straight vertical climb with few points: no turns, zero radius,
    coarse spacings and short holds. *)
Definition line_config : Config := {|
  h_start := 15.0; spiral_height := 10.0; turns := 0; start_radius := 0.0;
  end_radius := 0.0; spacing := 3.0; move_spacing := 5.0; start_angle := 0.0;
  hold_time := 0.2; time_step := 0.1 |}.
(** [math.cos] and [math.sin] at the only angle that configuration uses, 0. *)
Definition cos0 (x : float) : float := 1%float.
Definition sin0 (x : float) : float := x.

End Sampler.

(** ** [rainbow_spiral_offboard_from_csv.py] *)
Module Executor.

Local Open Scope float_scope.

Definition color : Type := float * float * float.

Definition YAW_ANGLE : float := 0.0.
Definition LED_STRIP_LENGTH : nat := 16.
Definition NUM_STRIPS : nat := 4.

Definition RAINBOW_COLORS : list color :=
  [ (1.0, 0.0, 0.0); (1.0, 0.0, 1.0); (0.0, 1.0, 0.0); (0.0, 0.0, 1.0) ].

Definition interpolate_color (idx total_points : Z) : res color :=
  let num_segments := (Z.of_nat (length RAINBOW_COLORS) - 1)%Z in
  t_total ← py_truediv idx (Z.max 1 (total_points - 1));
  segment_length ← py_fdiv 1.0 (Z2F num_segments);
  q ← py_fdiv t_total segment_length;
  n ← py_int q;
  let segment_idx := Z.min n (num_segments - 1) in
  t_segment ← py_fdiv (t_total - Z2F segment_idx * segment_length) segment_length;
  c0 ← py_index RAINBOW_COLORS segment_idx;
  c1 ← py_index RAINBOW_COLORS (segment_idx + 1);
  let r := c0.1.1 + (c1.1.1 - c0.1.1) * t_segment in
  let g := c0.1.2 + (c1.1.2 - c0.1.2) * t_segment in
  let b := c0.2 + (c1.2 - c0.2) * t_segment in
  let max_channel := py_max3 r g b in
  if py_gt max_channel 0 then
    r' ← py_fdiv r max_channel;
    g' ← py_fdiv g max_channel;
    b' ← py_fdiv b max_channel;
    Ok (r', g', b')
  else Ok (r, g, b).

(** [(int(rgb[0]*255)<<16) | (int(rgb[1]*255)<<8) | (int(rgb[2]*255)<<0)]. *)
Definition color_int (rgb : color) : res Z :=
  r ← py_int (rgb.1.1 * 255);
  g ← py_int (rgb.1.2 * 255);
  b ← py_int (rgb.2 * 255);
  Ok (Z.lor (Z.lor (Z.shiftl r 16) (Z.shiftl g 8)) (Z.shiftl b 0)).

(** [LightMatrix([LightStrip([color_int] * 16)] * 4)]. *)
Definition light_matrix (c : Z) : list (list Z) :=
  replicate NUM_STRIPS (replicate LED_STRIP_LENGTH c).

Definition mode_descriptions : gmap Z string :=
  list_to_map
    [ (0%Z, "On the ground"); (10%Z, "Initial climbing state");
      (20%Z, "Initial holding after climb"); (30%Z, "Moving to start point");
      (40%Z, "Holding at start point"); (50%Z, "Tracing");
      (60%Z, "Holding at end point"); (70%Z, "Returning to home coordinate");
      (80%Z, "Landing") ].

(** A waypoint tuple [(index, px, py, pz, mode)]. *)
Definition waypoint : Type := float * float * float * float * Z.
(** [waypoint[1:4]] and [waypoint[-1]]. *)
Definition position (w : waypoint) : float * float * float :=
  let '(_, x, y, z, _) := w in (x, y, z).
Definition mode_code (w : waypoint) : Z := w.2.

(** *** Reading the CSV rows *)
Section Parse.

(** The built-ins [float(s)] and [int(s)] on text. *)
Variable float_of_str : string -> res float.
Variable int_of_str : string -> res Z.

(** One element of the list comprehension; [row] is a [csv.DictReader]
    row with a text cell for every column of the header. *)
Definition parse_row (row : gmap string string) : res waypoint :=
  s ← py_getitem KStr row "index"; idx ← float_of_str s;
  s ← py_getitem KStr row "px"; x ← float_of_str s;
  s ← py_getitem KStr row "py"; y ← float_of_str s;
  s ← py_getitem KStr row "pz"; z ← float_of_str s;
  s ← py_getitem KStr row "mode"; m ← int_of_str s;
  Ok (idx, x, y, z, m).

Fixpoint parse_waypoints (rows : list (gmap string string)) : res (list waypoint) :=
  match rows with
  | [] => Ok []
  | row :: rest =>
      w ← parse_row row;
      ws ← parse_waypoints rest;
      Ok (w :: ws)
  end.

End Parse.

(** *** The vehicle *)

Inductive command :=
| Connect (system_address : string)
| Arm
| Disarm
| Land
| OffboardStart
| OffboardStop
| SetPositionNed (north east down yaw : float)
| FollowFlightMode (on : bool)
| SetMatrix (matrix : list (list Z)).

(** What the script prints. *)
Inductive message :=
| Text (s : string)
| StartFailed (code : Z)
| ModeLine (mode : Z) (description : string)
| LightsFailed (code : Z)
| StopFailed (e : exn).

Inductive event :=
| Call (c : command) (raised : option exn)
| Print (m : message)
| Sleep (seconds : float).

Inductive landed_state := ON_GROUND | IN_AIR | TAKING_OFF | LANDING | UNKNOWN.

(** The vehicle as the script meets it: what each awaited command does,
    given everything that happened before, and the telemetry streams, each
    a finite list of readings (a stream that never gives the awaited reading
    and never ends is not modelled). *)
Record Device := {
  respond : list event -> command -> option exn;
  connection_state : list bool;
  health : list (bool * bool);
  landed : list landed_state;
}.

(** Computations that extend the trace of events and may raise. *)
Definition M (A : Type) : Type := list event -> list event * res A.

Global Instance M_ret : MRet M := fun A x tr => (tr, Ok x).
Global Instance M_bind : MBind M :=
  fun A B f m tr =>
    match m tr with
    | (tr', Ok a) => f a tr'
    | (tr', Raise e) => (tr', Raise e)
    end.

Definition emit (e : event) : M unit := fun tr => (tr ++ [e], Ok ()).
Definition say (s : string) : M unit := emit (Print (Text s)).
Definition lift {A} (r : res A) : M A := fun tr => (tr, r).

(** [await drone.<command>]. *)
Definition call (dev : Device) (c : command) : M unit :=
  fun tr =>
    let o := respond dev tr c in
    (tr ++ [Call c o], match o with None => Ok () | Some e => Raise e end).

(** [async for x in stream: if ok(x): <hit>; break]. *)
Definition await_first {A} (ok : A -> bool) (stream : list A) (hit : M unit) : M unit :=
  if existsb ok stream then hit else mret ().

Section Run.

Variable float_of_str : string -> res float.
Variable int_of_str : string -> res Z.
Variable dev : Device.

(** The mode-change block of the loop body. *)
Definition mode_change (mode : Z) (lights_on : bool) : M bool :=
  description ← lift (py_getitem KInt mode_descriptions mode);
  _ ← emit (Print (ModeLine mode description));
  if (mode =? 50)%Z && negb lights_on then
    _ ← say "-- Turning on tracing lights";
    mret true
  else if negb (mode =? 50)%Z && lights_on then
    _ ← say "-- Lights to follow flight mode";
    _ ← call dev (FollowFlightMode true);
    mret false
  else mret lights_on.

(** [try: await drone.lights.set_matrix(matrix)] with [except LightsError]. *)
Definition set_matrix (c : Z) : M unit :=
  fun tr =>
    match call dev (SetMatrix (light_matrix c)) tr with
    | (tr', Raise (LightsError code)) => emit (Print (LightsFailed code)) tr'
    | r => r
    end.

(** The periodic light update of the loop body. *)
Definition update_lights (total_waypoints i : Z) : M unit :=
  rgb ← lift (interpolate_color i total_waypoints);
  c ← lift (color_int rgb);
  set_matrix c.

(** One iteration of [for i, waypoint in enumerate(waypoints)]; the loop
    variables are [last_mode] and [lights_on]. *)
Definition waypoint_step (total_waypoints i : Z) (w : waypoint)
           (st : Z * bool) : M (Z * bool) :=
  let '(last_mode, lights_on) := st in
  let '(x, y, z) := position w in
  let mode := mode_code w in
  st' ← (if negb (last_mode =? mode)%Z then
           lights_on' ← mode_change mode lights_on;
           mret (mode, lights_on')
         else mret (last_mode, lights_on));
  _ ← (if (mode =? 50)%Z && (i mod 10 =? 0)%Z then update_lights total_waypoints i
       else mret ());
  _ ← call dev (SetPositionNed x y z YAW_ANGLE);
  _ ← emit (Sleep 0.1);
  mret st'.

Fixpoint fly (total_waypoints i : Z) (ws : list waypoint) (st : Z * bool) : M unit :=
  match ws with
  | [] => mret ()
  | w :: rest =>
      st' ← waypoint_step total_waypoints i w st;
      fly total_waypoints (i + 1) rest st'
  end.

(** The whole loop, from [last_mode = 0], [lights_on = False]. *)
Definition fly_all (waypoints : list waypoint) : M unit :=
  fly (Z.of_nat (length waypoints)) 0 waypoints (0%Z, false).

(** [try: await drone.offboard.start()] with its handler; [false] is the
    early [return]. *)
Definition start_offboard : M bool :=
  fun tr =>
    match call dev OffboardStart tr with
    | (tr', Raise (OffboardError code)) =>
        (_ ← emit (Print (StartFailed code));
         _ ← say "-- Disarming";
         _ ← call dev Disarm;
         mret false) tr'
    | (tr', Raise e) => (tr', Raise e)
    | (tr', Ok _) => (tr', Ok true)
    end.

(** [try: await drone.offboard.stop()] with [except Exception]. *)
Definition stop_offboard : M unit :=
  fun tr =>
    match call dev OffboardStop tr with
    | (tr', Raise e) => emit (Print (StopFailed e)) tr'
    | r => r
    end.

(** Everything after offboard mode has started: read the file, fly the
    waypoints, land.  [csv] is what reading the file through
    [csv.DictReader] gives, or the exception it raises. *)
Definition mission (csv : res (list (gmap string string))) : M unit :=
  rows ← lift csv;
  waypoints ← lift (parse_waypoints float_of_str int_of_str rows);
  _ ← say "-- Performing trajectory";
  _ ← say "-- Starting trajectory";
  _ ← fly_all waypoints;
  _ ← say "-- Landing";
  _ ← call dev Land;
  _ ← await_first (fun s => match s with ON_GROUND => true | _ => false end)
        (landed dev) (mret ());
  _ ← say "-- Stopping offboard";
  _ ← stop_offboard;
  _ ← say "-- Disarming";
  call dev Disarm.

(** [run(connection_address, csv_file)]. *)
Definition run (connection_address : string)
           (csv : res (list (gmap string string))) : M unit :=
  _ ← call dev (Connect connection_address);
  _ ← say "-- Waiting for drone to connect...";
  _ ← await_first id (connection_state dev) (say "-- Connected to drone!");
  _ ← say "-- Waiting for drone to have a global position estimate...";
  _ ← await_first (fun h => h.1 && h.2) (health dev) (say "-- Global position estimate OK");
  _ ← say "-- Arming";
  _ ← call dev Arm;
  _ ← say "-- Setting initial setpoint";
  _ ← call dev (SetPositionNed 0.0 0.0 0.0 0.0);
  _ ← say "-- Starting offboard";
  started ← start_offboard;
  if started : bool then mission csv else mret ().

End Run.

(** The commands of a trace, in order. *)
Definition commands (tr : list event) : list command :=
  omap (fun e => match e with Call c _ => Some c | _ => None end) tr.

(** The matrices pushed to the lights, in order. *)
Definition matrices (tr : list event) : list (list (list Z)) :=
  omap (fun e => match e with Call (SetMatrix m) _ => Some m | _ => None end) tr.

(** The position setpoints sent, in order. *)
Definition setpoints (tr : list event) : list (float * float * float * float) :=
  omap (fun e => match e with
                 | Call (SetPositionNed n e' d yaw) _ => Some (n, e', d, yaw)
                 | _ => None end) tr.

(** *** What the properties speak of, and examples *)

Local Open Scope Z_scope.

(** The colour number the loop pushes at index [i]. *)
Definition tracing_color (total_waypoints i : Z) : res Z :=
  rgb ← interpolate_color i total_waypoints; color_int rgb.

(** The indices at which the loop updates the lights. *)
Fixpoint stride_indices (i : Z) (ws : list waypoint) : list Z :=
  match ws with
  | [] => []
  | w :: rest =>
      (if (mode_code w =? 50) && (i mod 10 =? 0) then [i] else [])
      ++ stride_indices (i + 1) rest
  end.

(** The setpoint the loop sends for a waypoint. *)
Definition setpoint_of (w : waypoint) : float * float * float * float :=
  let '(x, y, z) := position w in (x, y, z, YAW_ANGLE).

(** [m] only appends events, each satisfying [P]. *)
Definition adds (P : event -> Prop) {A} (m : M A) : Prop :=
  forall tr tr' r, m tr = (tr', r) -> exists new, tr' = tr ++ new /\ Forall P new.

(** Events the flight after a started offboard mode can add. *)
Definition after_start (e : event) : Prop :=
  match e with
  | Call OffboardStart _ | Call (Connect _) _ | Call Arm _ => False
  | _ => True
  end.

(** Events of the waypoint loop. *)
Definition loop_event (e : event) : Prop :=
  match e with
  | Call (SetPositionNed _ _ _ _) _ | Call (FollowFlightMode _) _ | Call (SetMatrix _) _ => True
  | Call _ _ => False
  | _ => True
  end.

(** Vehicles for the examples. *)
Definition calm : Device := {|
  respond := fun _ _ => None;
  connection_state := [false; true];
  health := [(true, false); (true, true)];
  landed := [IN_AIR; LANDING; ON_GROUND] |}.

Definition refuses_offboard (code : Z) : Device := {|
  respond := fun _ c => match c with OffboardStart => Some (OffboardError code) | _ => None end;
  connection_state := [true];
  health := [(true, true)];
  landed := [ON_GROUND] |}.

(** The lights plugin fails on [follow_flight_mode] only, or on [set_matrix] only. *)
Definition follow_fails (code : Z) : Device := {|
  respond := fun _ c => match c with FollowFlightMode _ => Some (LightsError code) | _ => None end;
  connection_state := [true];
  health := [(true, true)];
  landed := [ON_GROUND] |}.

Definition matrix_fails (code : Z) : Device := {|
  respond := fun _ c => match c with SetMatrix _ => Some (LightsError code) | _ => None end;
  connection_state := [true];
  health := [(true, true)];
  landed := [ON_GROUND] |}.

(** [int(s)] and [float(s)] on plain decimal text: an optional minus sign,
    digits, and for [float] an optional fraction, at most 15 digits in all.
    Other text is rejected here. *)
Definition digit_of (a : ascii) : option Z :=
  let n := Z.of_N (N_of_ascii a) - 48 in
  if (0 <=? n) && (n <=? 9) then Some n else None.

Fixpoint digits_value (acc : Z) (s : string) : option Z :=
  match s with
  | EmptyString => Some acc
  | String a s' => match digit_of a with
                   | Some d => digits_value (10 * acc + d) s'
                   | None => None
                   end
  end.

Definition unsigned_int (s : string) : res Z :=
  match s with
  | EmptyString => Raise ValueError
  | _ => match digits_value 0 s with Some n => Ok n | None => Raise ValueError end
  end.

Definition int_of_plain (s : string) : res Z :=
  match s with
  | String "-"%char s' => n ← unsigned_int s'; Ok (- n)
  | _ => unsigned_int s
  end.

Fixpoint split_point (s : string) : string * option string :=
  match s with
  | EmptyString => (EmptyString, None)
  | String "."%char s' => (EmptyString, Some s')
  | String a s' => let '(i, f) := split_point s' in (String a i, f)
  end.

Definition unsigned_float (s : string) : res float :=
  if (15 <? String.length s)%nat then Raise ValueError
  else
    match split_point s with
    | (i, None) => n ← unsigned_int i; Ok (Z2F n)
    | (i, Some f) =>
        n ← unsigned_int (i +:+ f);
        if (String.length i =? 0)%nat && (String.length f =? 0)%nat then Raise ValueError
        else Ok (Z2F n / Z2F (10 ^ Z.of_nat (String.length f)))%float
    end.

Definition float_of_plain (s : string) : res float :=
  match s with
  | String "-"%char s' => x ← unsigned_float s'; Ok (- x)%float
  | _ => unsigned_float s
  end.

(** A [csv.DictReader] row of the executor's own column names. *)
Definition flight_row (index px py pz mode : string) : gmap string string :=
  list_to_map [("index", index); ("px", px); ("py", py); ("pz", pz); ("mode", mode)].

(** Two waypoints: one in tracing mode, then one holding at the end. *)
Definition trace_then_hold : list (gmap string string) :=
  [ flight_row "0" "1.5" "0" "-20" "50"; flight_row "1" "1.5" "0" "-20" "60" ].

(** Ten climbing waypoints and an eleventh in tracing mode. *)
Definition climb_then_trace : list waypoint :=
  ((fun i => (Z2F i, 0%float, 0%float, (- Z2F i)%float, 10)) <$> py_range 10)
  ++ [(10%float, 0%float, 0%float, (-10)%float, 50)].

Definition mission_address : string := "udp://:14540".

(** What the executor reads from [trace_then_hold]. *)
Definition trace_then_hold_waypoints : list waypoint :=
  [ (0%float, 1.5%float, 0%float, (-20)%float, 50);
    (1%float, 1.5%float, 0%float, (-20)%float, 60) ].

(** The commands before the waypoint file is read. *)
Definition preflight_commands (addr : string) : list command :=
  [Connect addr; Arm; SetPositionNed 0 0 0 0; OffboardStart].

(** The commands the waypoint loop may send. *)
Definition loop_command (c : command) : Prop :=
  match c with
  | SetPositionNed _ _ _ _ | FollowFlightMode _ | SetMatrix _ => True
  | _ => False
  end.

End Executor.

(** ** Facts about binary64 arithmetic

    Derived from the bit-level specification of the primitive floats
    ([SpecFloat]): what rounding does to a shifted mantissa, that adding a
    positive number of at least one unit in the last place strictly increases
    a positive number, and that a positive number divided by a larger one
    truncates to zero. *)
Module Binary64.

Local Open Scope Z_scope.

(** What [binary_round_aux] returns once the mantissa has been rounded. *)
Definition bra_final (m2 e1 : Z) : spec_float :=
  let n2 := Z.max (fexp prec emax (Zdigits2 m2 + e1) - e1) 0 in
  match m2 / 2 ^ n2 with
  | Z0 => S754_zero false
  | Zpos p => if e1 + n2 <=? 971 then S754_finite false p (e1 + n2) else S754_infinity false
  | Zneg _ => S754_nan
  end.

(** A positive result strictly above the positive float [mx * 2^ex], or
    plus infinity. *)
Definition pos_result (r : spec_float) (mx : positive) (ex : Z) : Prop :=
  (exists p e, r = S754_finite false p e /\ (ex < e \/ (ex = e /\ (mx < p)%positive)))
  \/ r = S754_infinity false.

(** Plus zero, or a positive float strictly below 1. *)
Definition below_one (r : spec_float) : Prop :=
  r = S754_zero false \/ exists p e, r = S754_finite false p e /\ e < 0 /\ Zpos p < 2 ^ (- e).

(** The parameters the spiral search can reach: plus zero, or a positive
    float with exponent at most -52, that is, below 2. *)
Definition unit_param (t : float) : Prop :=
  Prim2SF t = S754_zero false \/
  exists m e, Prim2SF t = S754_finite false m e /\ e <= -52.

(** The rank of a positive float: it grows strictly with the value. *)
Definition ord (t : float) : Z :=
  match Prim2SF t with
  | S754_finite false m e => (e + 1075) * 2 ^ 53 + Zpos m
  | _ => 0
  end.

(** An increment of the spiral search: a positive normal float of at least
    2^-14. *)
Definition step_ok (d : float) : bool :=
  match Prim2SF d with
  | S754_finite false m e => (-66 <=? e) && (2 ^ 52 <=? Zpos m)
  | _ => false
  end.

(** [check_dts n dt]: from [dt], the increments stay normal steps for [n]
    multiplications by 1.5 and then overflow to infinity. *)
Fixpoint check_dts (n : nat) (dt : float) : bool :=
  match n with
  | O => match Prim2SF dt with S754_infinity false => true | _ => false end
  | S n' => step_ok dt && check_dts n' (dt * 1.5)%float
  end.

(** The value of a finite float as a fraction with a positive denominator. *)
Definition SF_fraction (x : spec_float) : option (Z * Z) :=
  match x with
  | S754_zero _ => Some (0, 1)
  | S754_finite s m e =>
      if 0 <=? e then Some (cond_Zopp s (Zpos m * 2 ^ e), 1)
      else Some (cond_Zopp s (Zpos m), 2 ^ (- e))
  | _ => None
  end.

(** The floor of the exact quotient of two finite floats. *)
Definition exact_floor_quotient (x y : float) : option Z :=
  match SF_fraction (Prim2SF x), SF_fraction (Prim2SF y) with
  | Some (a, b), Some (c, d) => if c =? 0 then None else Some ((a * d) / (b * c))
  | _, _ => None
  end.

Lemma fexp64_eq z : fexp prec emax z = Z.max (z - 53) (-1074).
Proof. reflexivity. Qed.

Lemma digits2_log2 p : Zpos (digits2_pos p) = Z.log2 (Zpos p) + 1.
Proof.
  assert (H : forall q, digits2_pos q = Pos.size q) by (induction q; simpl; congruence).
  destruct p; simpl; rewrite ?H; lia.
Qed.

Lemma Zdigits2_log2 m : 0 < m -> Zdigits2 m = Z.log2 m + 1.
Proof. destruct m; try lia. intros _. apply digits2_log2. Qed.

Lemma Zdigits2_bounds m : 0 < m -> 2 ^ (Zdigits2 m - 1) <= m < 2 ^ Zdigits2 m.
Proof.
  intros H. rewrite Zdigits2_log2 by assumption.
  replace (Z.log2 m + 1 - 1) with (Z.log2 m) by lia.
  replace (Z.log2 m + 1) with (Z.succ (Z.log2 m)) by lia.
  apply Z.log2_spec; assumption.
Qed.

Lemma Zdigits2_nonneg m : 0 <= m -> 0 <= Zdigits2 m.
Proof. destruct m; simpl; lia. Qed.

Lemma Zdigits2_le m n : 0 < m -> m <= n -> Zdigits2 m <= Zdigits2 n.
Proof.
  intros. rewrite !Zdigits2_log2 by lia.
  pose proof (Z.log2_le_mono m n). lia.
Qed.

Lemma Zdigits2_shift m k : 0 < m -> 0 <= k -> Zdigits2 (m * 2 ^ k) = Zdigits2 m + k.
Proof.
  intros. assert (0 < 2 ^ k) by (apply Z.pow_pos_nonneg; lia).
  rewrite !Zdigits2_log2 by nia.
  rewrite Z.log2_mul_pow2 by lia. lia.
Qed.

Lemma Zdigits2_lt_pow m d : 0 <= m -> 0 <= d -> m < 2 ^ d -> Zdigits2 m <= d.
Proof.
  intros Hm Hd Hlt. destruct (Z.eq_dec m 0) as [->|]; [simpl; lia|].
  destruct (Zdigits2_bounds m) as [Hlo _]; [lia|].
  destruct (Z_le_gt_dec (Zdigits2 m) d); [assumption|].
  assert (2 ^ d <= 2 ^ (Zdigits2 m - 1)) by (apply Z.pow_le_mono_r; lia). lia.
Qed.

Lemma Zdigits2_ge_pow m d : 0 <= d -> 2 ^ d <= m -> d + 1 <= Zdigits2 m.
Proof.
  intros Hd Hle. assert (0 < 2 ^ d) by (apply Z.pow_pos_nonneg; lia).
  destruct (Zdigits2_bounds m) as [_ Hhi]; [lia|].
  destruct (Z_le_gt_dec (d + 1) (Zdigits2 m)); [assumption|].
  assert (0 <= Zdigits2 m) by (apply Zdigits2_nonneg; lia).
  assert (2 ^ Zdigits2 m <= 2 ^ d) by (apply Z.pow_le_mono_r; lia). lia.
Qed.

(** Canonical finite numbers. *)
Lemma bounded_inv m e :
  bounded prec emax m e = true ->
  Z.max (Zpos (digits2_pos m) + e - 53) (-1074) = e /\ e <= 971.
Proof.
  unfold bounded, canonical_mantissa. rewrite andb_true_iff, Z.eqb_eq, Z.leb_le.
  rewrite fexp64_eq. intros [H1 H2]. split; [exact H1 | exact H2].
Qed.

Lemma bounded_facts m e :
  bounded prec emax m e = true ->
  -1074 <= e <= 971 /\ Zpos m < 2 ^ 53 /\ (e = -1074 \/ 2 ^ 52 <= Zpos m).
Proof.
  intros H. apply bounded_inv in H. destruct H as [H1 H2].
  pose proof (Zdigits2_bounds (Zpos m) eq_refl) as [Hlo Hhi]. simpl Zdigits2 in *.
  assert (Hd : Zpos (digits2_pos m) <= 53) by lia.
  repeat split; try lia.
  - eapply Z.lt_le_trans; [exact Hhi|]. apply Z.pow_le_mono_r; lia.
  - destruct (Z.eq_dec e (-1074)); [left; assumption|right].
    assert (Zpos (digits2_pos m) = 53) by lia.
    replace 52 with (Zpos (digits2_pos m) - 1) by lia. exact Hlo.
Qed.

(** Right shifts with sticky bits. *)
Lemma iter_pos_nat {A} (f : A -> A) p x : iter_pos f p x = Nat.iter (Pos.to_nat p) f x.
Proof.
  revert x. induction p as [p IH|p IH|]; intros x; simpl iter_pos.
  - rewrite !IH, Pos2Nat.inj_xI. rewrite Nat.iter_succ_r.
    replace (2 * Pos.to_nat p)%nat with (Pos.to_nat p + Pos.to_nat p)%nat by lia.
    now rewrite Nat.iter_add.
  - rewrite !IH, Pos2Nat.inj_xO.
    replace (2 * Pos.to_nat p)%nat with (Pos.to_nat p + Pos.to_nat p)%nat by lia.
    now rewrite Nat.iter_add.
  - reflexivity.
Qed.

Lemma shr_1_m mrs : 0 <= shr_m mrs -> shr_m (shr_1 mrs) = shr_m mrs / 2.
Proof.
  destruct mrs as [m r s]. simpl shr_m at 1 3. intros Hm. rewrite <- Z.div2_div.
  destruct m as [|[p|p|]|p]; try reflexivity; lia.
Qed.

Lemma shr_n_m n mrs :
  0 <= shr_m mrs -> shr_m (Nat.iter n shr_1 mrs) = shr_m mrs / 2 ^ Z.of_nat n.
Proof.
  intros Hm. induction n as [|n IH].
  - simpl. now rewrite Z.div_1_r.
  - rewrite Nat.iter_succ, shr_1_m, IH.
    + rewrite Nat2Z.inj_succ, Z.pow_succ_r by lia.
      rewrite Z.div_div by (try apply Z.pow_pos_nonneg; lia).
      f_equal; lia.
    + rewrite IH. apply Z.div_pos; [assumption | apply Z.pow_pos_nonneg; lia].
Qed.

Lemma shr_1_even k :
  0 <= k -> k mod 2 = 0 ->
  shr_1 (Build_shr_record k false false) = Build_shr_record (k / 2) false false.
Proof.
  intros Hk Hev. rewrite <- Z.div2_div.
  destruct k as [|[p|p|]|p]; try reflexivity; try lia.
  - rewrite Pos2Z.inj_xI in Hev. rewrite Z.add_comm, Z.mul_comm, Z.mod_add in Hev by lia. discriminate.
  - discriminate.
Qed.

Lemma shr_n_exact n m :
  0 <= m -> m mod 2 ^ Z.of_nat n = 0 ->
  Nat.iter n shr_1 (Build_shr_record m false false)
  = Build_shr_record (m / 2 ^ Z.of_nat n) false false.
Proof.
  intros Hm. induction n as [|n IH]; intros Hmod.
  - simpl. now rewrite Z.div_1_r.
  - rewrite Nat2Z.inj_succ, Z.pow_succ_r in * by lia.
    assert (Hp : 0 < 2 ^ Z.of_nat n) by (apply Z.pow_pos_nonneg; lia).
    apply Z.mod_divide in Hmod; [|lia]. destruct Hmod as [c Hc].
    assert (Hmn : m mod 2 ^ Z.of_nat n = 0).
    { apply Z.mod_divide; [lia|]. exists (c * 2). lia. }
    rewrite Nat.iter_succ, IH by assumption.
    assert (Hq : m / 2 ^ Z.of_nat n = c * 2).
    { subst m. replace (c * (2 * 2 ^ Z.of_nat n)) with (c * 2 * 2 ^ Z.of_nat n) by ring.
      apply Z.div_mul; lia. }
    rewrite shr_1_even.
    + f_equal. rewrite Z.div_div by lia. f_equal; lia.
    + apply Z.div_pos; lia.
    + rewrite Hq. apply Z.mod_mul; lia.
Qed.

Lemma shr_spec mrs e n :
  shr mrs e n = (Nat.iter (Z.to_nat n) shr_1 mrs, e + Z.max n 0).
Proof.
  destruct n as [|p|p]; simpl shr.
  - now rewrite Z.add_0_r.
  - rewrite iter_pos_nat. f_equal.
  - now rewrite Z.add_0_r.
Qed.

Lemma shr_m_of_loc m l : shr_m (shr_record_of_loc m l) = m.
Proof. destruct l as [|[]]; reflexivity. Qed.

Lemma round_nearest_even_cases m l :
  round_nearest_even m l = m \/ round_nearest_even m l = m + 1.
Proof. destruct l as [|[]]; simpl; try destruct (Z.even m); auto. Qed.

Lemma binary_round_aux_spec m e l :
  0 <= m ->
  let n1 := Z.max (fexp prec emax (Zdigits2 m + e) - e) 0 in
  exists m2,
    (m2 = m / 2 ^ n1 \/ m2 = m / 2 ^ n1 + 1) /\
    (l = loc_Exact -> m mod 2 ^ n1 = 0 -> m2 = m / 2 ^ n1) /\
    binary_round_aux prec emax false m e l = bra_final m2 (e + n1).
Proof.
  intros Hm n1.
  unfold binary_round_aux, shr_fexp. rewrite shr_spec.
  set (mrs1 := Nat.iter _ shr_1 (shr_record_of_loc m l)).
  assert (Hn1 : Z.of_nat (Z.to_nat (fexp prec emax (Zdigits2 m + e) - e)) = n1) by (unfold n1; lia).
  assert (Hm1 : shr_m mrs1 = m / 2 ^ n1).
  { unfold mrs1. rewrite shr_n_m by (rewrite shr_m_of_loc; assumption).
    now rewrite shr_m_of_loc, Hn1. }
  fold n1.
  exists (round_nearest_even (shr_m mrs1) (loc_of_shr_record mrs1)).
  split; [|split].
  - rewrite <- Hm1. apply round_nearest_even_cases.
  - intros -> Hmod. unfold mrs1. simpl shr_record_of_loc.
    rewrite shr_n_exact by (rewrite ?Hn1; assumption). rewrite Hn1. reflexivity.
  - set (m2 := round_nearest_even _ _). rewrite shr_spec.
    unfold bra_final.
    set (k := fexp prec emax (Zdigits2 m2 + (e + n1)) - (e + n1)).
    rewrite shr_n_m by (simpl; unfold m2; destruct (round_nearest_even_cases (shr_m mrs1) (loc_of_shr_record mrs1)) as [-> | ->];
                        rewrite Hm1; assert (0 <= m / 2 ^ n1) by (apply Z.div_pos; [lia | apply Z.pow_pos_nonneg; unfold n1; lia]); lia).
    simpl shr_m. replace (Z.of_nat (Z.to_nat k)) with (Z.max k 0) by lia.
    reflexivity.
Qed.

Lemma bra_final_zero e1 : bra_final 0 e1 = S754_zero false.
Proof. unfold bra_final. now rewrite Z.div_0_l by (apply Z.pow_nonzero; lia). Qed.

Lemma bra_final_pos m2 e1 :
  1 <= m2 -> -1074 <= e1 ->
  let e3 := e1 + Z.max (Zdigits2 m2 - 53) 0 in
  (exists p, bra_final m2 e1 = S754_finite false p e3 /\ e3 <= 971 /\
             (e3 = e1 -> Zpos p = m2) /\ Zpos p * 2 ^ (e3 - e1) <= m2)
  \/ (bra_final m2 e1 = S754_infinity false /\ 971 < e3).
Proof.
  intros Hm He e3. unfold bra_final. rewrite fexp64_eq.
  set (n2 := Z.max _ 0).
  assert (Hn2 : n2 = Z.max (Zdigits2 m2 - 53) 0) by (unfold n2; lia).
  assert (Hp : 0 < 2 ^ n2) by (apply Z.pow_pos_nonneg; lia).
  destruct (Zdigits2_bounds m2) as [Hlo Hhi]; [lia|].
  assert (Hq : 1 <= m2 / 2 ^ n2).
  { apply Z.div_le_lower_bound; [lia|]. rewrite Z.mul_1_r.
    eapply Z.le_trans; [|exact Hlo]. apply Z.pow_le_mono_r; [lia|].
    assert (1 <= Zdigits2 m2) by (rewrite Zdigits2_log2 by lia; pose proof (Z.log2_nonneg m2); lia).
    lia. }
  replace e3 with (e1 + n2) by (unfold e3; lia).
  destruct (m2 / 2 ^ n2) as [|p|p] eqn:E; try lia.
  destruct (e1 + n2 <=? 971) eqn:Ele; [left|right; split; [reflexivity|apply Z.leb_gt; assumption]].
  exists p. split; [reflexivity|]. split; [apply Z.leb_le; assumption|]. split.
  - intros H0. assert (H : n2 = 0) by lia. rewrite H, Z.pow_0_r, Z.div_1_r in E. auto.
  - replace (e1 + n2 - e1) with n2 by lia. rewrite <- E. rewrite Z.mul_comm.
    apply Z.mul_div_le; lia.
Qed.

(** Addition of two positive finite numbers. *)
Lemma Pos_iter_xO m d : Zpos (Pos.iter xO m d) = Zpos m * 2 ^ Zpos d.
Proof.
  induction d using Pos.peano_ind.
  - simpl. lia.
  - rewrite Pos.iter_succ, Pos2Z.inj_xO, IHd, Pos2Z.inj_succ, Z.pow_succ_r by lia. ring.
Qed.

Lemma shl_align_spec mx ex ez :
  ez <= ex -> Zpos (fst (shl_align mx ex ez)) = Zpos mx * 2 ^ (ex - ez).
Proof.
  intros H. unfold shl_align. destruct (ez - ex) as [|d|d] eqn:E; try lia.
  - cbn [fst]. replace (ex - ez) with 0 by lia. rewrite Z.pow_0_r. lia.
  - cbn [fst]. rewrite Pos_iter_xO. f_equal. f_equal. lia.
Qed.

Lemma shl_align_id mx ex ez : ex <= ez -> shl_align mx ex ez = (mx, ex).
Proof. intros H. unfold shl_align. destruct (ez - ex) eqn:E; try reflexivity; lia. Qed.

Lemma SFadd_pos_gt mx ex my ey :
  bounded prec emax mx ex = true -> bounded prec emax my ey = true ->
  (ex <= ey \/ 2 ^ (ex - ey) <= Zpos my) ->
  pos_result (SF64add (S754_finite false mx ex) (S754_finite false my ey)) mx ex.
Proof.
  intros Bx By Hulp.
  pose proof (bounded_inv _ _ Bx) as [Cx _]. pose proof (bounded_facts _ _ Bx) as (Rx & Mx & _).
  pose proof (bounded_facts _ _ By) as (Ry & My & _).
  unfold SF64add, SFadd. remember (Z.min ex ey) as ez eqn:Hez.
  assert (Hzx : ez <= ex) by lia. assert (Hzy : ez <= ey) by lia.
  cbn [cond_Zopp].
  pose proof (shl_align_spec mx ex ez Hzx) as Ha. pose proof (shl_align_spec my ey ez Hzy) as Hb.
  remember (fst (shl_align mx ex ez)) as a eqn:Hadef. remember (fst (shl_align my ey ez)) as b eqn:Hbdef.
  clear Hadef Hbdef.
  change (Zpos a + Zpos b) with (Zpos (a + b)). cbn [binary_normalize].
  unfold binary_round.
  assert (H2x : 0 < 2 ^ (ex - ez)) by (apply Z.pow_pos_nonneg; lia).
  assert (H2y : 0 < 2 ^ (ey - ez)) by (apply Z.pow_pos_nonneg; lia).
  assert (Hdig : Zpos (digits2_pos mx) + (ex - ez) <= Zpos (digits2_pos (a + b))).
  { change (Zdigits2 (Zpos mx) + (ex - ez) <= Zdigits2 (Zpos (a + b))).
    rewrite <- Zdigits2_shift by lia. apply Zdigits2_le; [nia|]. rewrite Pos2Z.inj_add. lia. }
  assert (HE : ex <= fexp prec emax (Zpos (digits2_pos (a + b)) + ez)).
  { rewrite fexp64_eq. lia. }
  rewrite shl_align_id by lia.
  destruct (binary_round_aux_spec (Zpos (a + b)) ez loc_Exact ltac:(lia)) as (m2 & Hm2 & _ & ->).
  cbn [Zdigits2] in *.
  remember (fexp prec emax (Zpos (digits2_pos (a + b)) + ez)) as E1 eqn:HE1.
  replace (Z.max (E1 - ez) 0) with (E1 - ez) in * by lia.
  replace (ez + (E1 - ez)) with E1 by lia.
  assert (Hpos : 1 <= Zpos (a + b) / 2 ^ (E1 - ez)).
  { apply Z.div_le_lower_bound; [apply Z.pow_pos_nonneg; lia|]. rewrite Z.mul_1_r.
    destruct (Zdigits2_bounds (Zpos (a + b)) eq_refl) as [Hlo _]. cbn [Zdigits2] in Hlo.
    eapply Z.le_trans; [|exact Hlo]. apply Z.pow_le_mono_r; [lia|].
    rewrite fexp64_eq in HE1.
    pose proof (digits2_log2 (a + b)). pose proof (Z.log2_nonneg (Zpos (a + b))). lia. }
  assert (Hstep : E1 = ex -> Zpos mx + 1 <= Zpos (a + b) / 2 ^ (E1 - ez)).
  { intros ->. rewrite Pos2Z.inj_add, Ha, Hb.
    rewrite Z.div_add_l by lia.
    assert (1 <= Zpos my * 2 ^ (ey - ez) / 2 ^ (ex - ez)); [|lia].
    apply Z.div_le_lower_bound; [lia|]. rewrite Z.mul_1_r.
    destruct (Z_le_gt_dec ex ey) as [Hle|Hgt].
    - replace ez with ex by lia. rewrite Z.sub_diag, Z.pow_0_r.
      assert (0 < 2 ^ (ey - ex)) by (apply Z.pow_pos_nonneg; lia). nia.
    - destruct Hulp as [Hle | Hge]; [lia|].
      replace ez with ey by lia. rewrite Z.sub_diag, Z.pow_0_r, Z.mul_1_r. exact Hge. }
  assert (Hm2' : 1 <= m2 /\ (E1 = ex -> Zpos mx + 1 <= m2)) by (destruct Hm2; split; intros; try specialize (Hstep H); lia).
  destruct Hm2' as [Hm2a Hm2b].
  assert (HE1lo : -1074 <= E1) by lia.
  destruct (bra_final_pos m2 E1 Hm2a HE1lo) as [(p & -> & Hle & Heq & _) | [-> _]].
  - left. eexists p, _. split; [reflexivity|].
    set (e3 := E1 + Z.max (Zdigits2 m2 - 53) 0) in *.
    destruct (Z.eq_dec e3 ex) as [Hee|]; [right|left; lia].
    split; [auto|]. assert (E1 = ex) by lia.
    specialize (Hm2b H). specialize (Heq ltac:(lia)). lia.
  - right. reflexivity.
Qed.

(** Division of a positive finite number by a larger one. *)
Lemma SFltb_pos_inv mx ex my ey :
  SFltb (S754_finite false mx ex) (S754_finite false my ey) = true ->
  ex < ey \/ (ex = ey /\ Zpos mx < Zpos my).
Proof.
  unfold SFltb, SFcompare. destruct (Z.compare_spec ex ey) as [->|H|H]; try discriminate.
  - destruct (Pos.compare_cont Eq mx my) eqn:E; try discriminate. intros _. right.
    split; [reflexivity|]. change ((mx ?= my)%positive = Lt) in E. rewrite Pos.compare_lt_iff in E. lia.
  - intros _. left. assumption.
Qed.

Lemma new_location_zero n : new_location n 0 = loc_Exact.
Proof. unfold new_location. destruct (Z.even n); reflexivity. Qed.

Lemma SFdiv_lt_one mx ex my ey :
  bounded prec emax mx ex = true -> bounded prec emax my ey = true ->
  SFltb (S754_finite false mx ex) (S754_finite false my ey) = true ->
  below_one (SF64div (S754_finite false mx ex) (S754_finite false my ey)).
Proof.
  intros Bx By Hlt.
  pose proof (bounded_inv _ _ Bx) as [Cx _]. pose proof (bounded_facts _ _ Bx) as (Rx & Mx & Nx).
  pose proof (bounded_inv _ _ By) as [Cy _]. pose proof (bounded_facts _ _ By) as (Ry & My & Ny).
  apply SFltb_pos_inv in Hlt.
  unfold SF64div, SFdiv, SFdiv_core_binary. cbn [xorb]. cbv zeta.
  change (Zdigits2 (Zpos mx)) with (Zpos (digits2_pos mx)).
  change (Zdigits2 (Zpos my)) with (Zpos (digits2_pos my)).
  assert (P52 : 2 ^ 52 = 4503599627370496) by reflexivity.
  assert (P53 : 2 ^ 53 = 9007199254740992) by reflexivity.
  set (X := Zpos mx) in *. set (Y := Zpos my) in *.
  assert (HX : 0 < X) by (unfold X; lia). assert (HY : 0 < Y) by (unfold Y; lia).
  (* x < y in integer form *)
  set (j := ey - ex).
  assert (Hj : 0 <= j) by (unfold j; lia).
  assert (Hxy : X < Y * 2 ^ j /\ X * 2 ^ 53 <= (2 ^ 53 - 1) * (Y * 2 ^ j)).
  { destruct Hlt as [Hlt | [Heq Hlt]].
    - assert (HY52 : 2 ^ 52 <= Y) by (clear - Ny Rx Hlt; lia).
      assert (H2j : 2 <= 2 ^ j).
      { change 2 with (2 ^ 1) at 1. apply Z.pow_le_mono_r; unfold j; clear - Hlt; lia. }
      assert (HX53 : X < 2 ^ 53) by exact Mx.
      assert (HYj : Y * 2 <= Y * 2 ^ j) by (apply Z.mul_le_mono_nonneg_l; clear - HY H2j; lia).
      clear - HY52 HX53 HYj P52 P53. rewrite P53 in *. rewrite P52 in *. split; lia.
    - replace j with 0 by (unfold j; clear - Heq; lia). rewrite Z.pow_0_r.
      assert (HXY : X < Y) by (unfold X, Y; clear - Hlt; lia).
      clear - HXY Mx P53. rewrite P53 in *. split; lia. }
  destruct Hxy as [Hxy1 Hxy2].
  remember (Z.min (fexp prec emax (Zpos (digits2_pos mx) + ex - (Zpos (digits2_pos my) + ey))) (ex - ey)) as e' eqn:He'.
  rewrite fexp64_eq in He'.
  assert (Hdelta : Zpos (digits2_pos mx) + ex - (Zpos (digits2_pos my) + ey) <= 0).
  { destruct (Zdigits2_bounds X HX) as [Hxlo _]. destruct (Zdigits2_bounds Y HY) as [_ Hyhi].
    change (Zdigits2 X) with (Zpos (digits2_pos mx)) in *. change (Zdigits2 Y) with (Zpos (digits2_pos my)) in *.
    assert (Hlt2 : 2 ^ (Zpos (digits2_pos mx) - 1) < 2 ^ (Zpos (digits2_pos my) + j)).
    { rewrite (Z.pow_add_r 2 (Zpos (digits2_pos my)) j) by (clear - Hj; lia).
      assert (H2j : 0 < 2 ^ j) by (apply Z.pow_pos_nonneg; clear - Hj; lia).
      assert (HYj : Y * 2 ^ j < 2 ^ Zpos (digits2_pos my) * 2 ^ j)
        by (apply Z.mul_lt_mono_pos_r; [exact H2j|apply Hyhi]).
      clear - Hxlo Hxy1 HYj. lia. }
    apply Z.pow_lt_mono_r_iff in Hlt2; [|clear; lia|clear - Hj; lia].
    unfold j in Hlt2. clear - Hlt2. lia. }
  assert (He'53 : e' <= -53) by (clear - He' Hdelta; lia).
  assert (He'k : e' <= ex - ey) by (clear - He'; lia).
  remember (ex - ey - e') as s eqn:Hs.
  assert (Hs0 : 0 <= s) by (clear - Hs He'k; lia).
  assert (Hm' : match s with Z.pos _ => Z.shiftl X s | 0 => X | Z.neg _ => 0 end = X * 2 ^ s).
  { clear - Hs0. destruct s as [|p|p]; [now rewrite Z.pow_0_r, Z.mul_1_r | apply Z.shiftl_mul_pow2; lia | lia]. }
  rewrite Hm'. clear Hm'.
  assert (Hdm := Z.div_mod (X * 2 ^ s) Y ltac:(clear - HY; lia)).
  assert (Hmb := Z.mod_pos_bound (X * 2 ^ s) Y HY).
  unfold Z.div, Z.modulo in Hdm, Hmb.
  destruct (Z.div_eucl (X * 2 ^ s) Y) as [q r]. cbn [fst snd] in Hdm, Hmb.
  assert (H2s : 0 < 2 ^ s) by (apply Z.pow_pos_nonneg; clear - Hs0; lia).
  assert (HXs : 0 < X * 2 ^ s) by (apply Z.mul_pos_pos; assumption).
  assert (Hq0 : 0 <= q).
  { destruct (Z_lt_le_dec q 0) as [Hneg|]; [exfalso|assumption].
    assert (Y * q <= Y * (-1)) by (apply Z.mul_le_mono_nonneg_l; clear - HY Hneg; lia).
    clear - Hdm Hmb HXs H. lia. }
  (* the quotient is below 2^(-e') *)
  assert (Hesplit : 2 ^ (- e') = 2 ^ s * 2 ^ j).
  { rewrite <- Z.pow_add_r by (clear - Hs0 Hj; lia). f_equal. unfold j. clear - Hs. lia. }
  assert (Hqlt : q < 2 ^ (- e')).
  { rewrite Hesplit. apply (Z.mul_lt_mono_pos_l Y); [exact HY|].
    assert (Hm : X * 2 ^ s < Y * 2 ^ j * 2 ^ s) by (apply Z.mul_lt_mono_pos_r; assumption).
    clear - Hdm Hmb Hm. lia. }
  assert (Hdq : Zdigits2 q + e' <= 0).
  { pose proof (Zdigits2_lt_pow q (- e') Hq0 ltac:(clear - He'53; lia) Hqlt) as Hd.
    clear - Hd. lia. }
  destruct (binary_round_aux_spec q e' (new_location Y r) Hq0) as (m2 & Hm2 & Hex & ->).
  rewrite fexp64_eq in *.
  remember (Z.max (Z.max (Zdigits2 q + e' - 53) (-1074) - e') 0) as n1 eqn:Hn1.
  assert (Hn1' : 0 <= n1) by (clear - Hn1; lia).
  assert (H2n : 0 < 2 ^ n1) by (apply Z.pow_pos_nonneg; [clear; lia|exact Hn1']).
  assert (Hdq0 : 0 <= Zdigits2 q) by (apply Zdigits2_nonneg; exact Hq0).
  assert (He1 : -1074 <= e' + n1 <= -53) by (clear - Hn1 He'53 Hdq; lia).
  assert (Hm1 : 0 <= q / 2 ^ n1 < 2 ^ 53).
  { split; [apply Z.div_pos; assumption|].
    apply Z.div_lt_upper_bound; [exact H2n|].
    destruct (Z.eq_dec q 0) as [->|Hq]; [apply Z.mul_pos_pos; [exact H2n|reflexivity]|].
    destruct (Zdigits2_bounds q ltac:(clear - Hq0 Hq; lia)) as [_ Hhi].
    eapply Z.lt_le_trans; [exact Hhi|]. rewrite <- Z.pow_add_r by (clear - Hn1'; lia).
    apply Z.pow_le_mono_r; [clear; lia|]. clear - Hn1. lia. }
  (* at exponent -53 the mantissa stays below 2^53 *)
  assert (Hm2hi : m2 <= 2 ^ 53 /\ (e' + n1 = -53 -> m2 < 2 ^ 53)).
  { split; [clear - Hm2 Hm1; destruct Hm2; lia|]. intros Hee.
    destruct (Z_lt_le_dec (q / 2 ^ n1) (2 ^ 53 - 1)) as [Hsmall|Hbig];
      [clear - Hm2 Hsmall; destruct Hm2; lia|].
    assert (Hqd := Z.div_mod q (2 ^ n1) ltac:(clear - H2n; lia)).
    assert (Hqb := Z.mod_pos_bound q (2 ^ n1) H2n).
    assert (Hbound : X * 2 ^ s * 2 ^ j <= (2 ^ 53 - 1) * Y * 2 ^ j * 2 ^ n1).
    { assert (Hsj : 2 ^ s * 2 ^ j = 2 ^ 53 * 2 ^ n1).
      { rewrite <- !Z.pow_add_r by (clear - Hs0 Hj Hn1'; lia). f_equal. unfold j.
        clear - Hs Hee. lia. }
      replace (X * 2 ^ s * 2 ^ j) with (X * 2 ^ 53 * 2 ^ n1) by (rewrite <- !Z.mul_assoc; rewrite Hsj; ring).
      replace ((2 ^ 53 - 1) * Y * 2 ^ j * 2 ^ n1) with ((2 ^ 53 - 1) * (Y * 2 ^ j) * 2 ^ n1) by ring.
      apply Z.mul_le_mono_nonneg_r; [clear - H2n; lia|exact Hxy2]. }
    assert (H2j : 0 < 2 ^ j) by (apply Z.pow_pos_nonneg; [clear; lia|exact Hj]).
    assert (Hbound' : X * 2 ^ s <= (2 ^ 53 - 1) * Y * 2 ^ n1).
    { apply (proj2 (Z.mul_le_mono_pos_r _ _ (2 ^ j) H2j)).
      replace ((2 ^ 53 - 1) * Y * 2 ^ n1 * 2 ^ j) with ((2 ^ 53 - 1) * Y * 2 ^ j * 2 ^ n1) by ring.
      exact Hbound. }
    assert (Hzero : q mod 2 ^ n1 = 0 /\ r = 0).
{ clear - Hdm Hmb Hqd Hqb Hbig Hbound' HY H2n.
  remember (q / 2 ^ n1) as a eqn:Ea. remember (q mod 2 ^ n1) as rho eqn:Er.
  remember (2 ^ n1) as P eqn:EP. clear Ea Er EP.
  assert (HYP : 0 <= Y * P) by (apply Z.mul_nonneg_nonneg; lia).
  assert (H1 : Y * P * (2 ^ 53 - 1) <= Y * P * a) by (apply Z.mul_le_mono_nonneg_l; assumption).
  assert (H2 : 0 <= Y * rho) by (apply Z.mul_nonneg_nonneg; lia).
  assert (H3 : X * 2 ^ s = Y * P * a + Y * rho + r) by (rewrite Hdm, Hqd; ring).
  assert (H4 : Y * rho + r <= 0) by (clear - H1 H3 Hbound'; lia).
  assert (H5 : r = 0) by (clear - H2 H4 Hmb; lia).
  split; [|exact H5].
  assert (H6 : Y * rho = 0) by (clear - H2 H4 H5; lia).
  apply Z.mul_eq_0 in H6. clear - H6 HY. lia. }
    destruct Hzero as [Hz1 ->]. rewrite new_location_zero in Hex.
    rewrite (Hex eq_refl Hz1). clear - Hm1. lia. }
  destruct Hm2hi as [Hm2hi Hm2lt].
  assert (Hm2lo : 0 <= m2) by (clear - Hm2 Hm1; destruct Hm2; lia).
  destruct (Z.eq_dec m2 0) as [->|Hm2nz].
  { left. apply bra_final_zero. }
  right.
  destruct (bra_final_pos m2 (e' + n1) ltac:(clear - Hm2lo Hm2nz; lia) ltac:(clear - He1; lia))
    as [(p & -> & Hle & Heq & Hval) | [_ Hbad]].
  - assert (Hd2 : Zdigits2 m2 <= 54).
    { apply Zdigits2_lt_pow; [exact Hm2lo|clear; lia|].
      change (2 ^ 54) with (2 * 2 ^ 53). clear - Hm2hi. lia. }
    remember (e' + n1) as e1 eqn:He1def.
    remember (e1 + Z.max (Zdigits2 m2 - 53) 0) as e3 eqn:He3.
    exists p, e3. split; [reflexivity|].
    destruct (Z.eq_dec e1 (-53)) as [E53|E53].
    + specialize (Hm2lt E53).
      assert (Hd3 : Zdigits2 m2 <= 53) by (apply Zdigits2_lt_pow; [exact Hm2lo|clear; lia|exact Hm2lt]).
      assert (He3' : e3 = -53) by (clear - He3 E53 Hd3; lia).
      split; [clear - He3'; lia|]. rewrite He3'.
      assert (Hpm : Zpos p = m2) by (apply Heq; clear - He3' E53; lia).
      change (- -53) with 53. rewrite Hpm. exact Hm2lt.
    + assert (He3' : e1 <= e3 <= -53) by (clear - He3 E53 He1 Hd2; lia). split; [clear - He3'; lia|].
      assert (H2e : 0 < 2 ^ (e3 - e1)) by (apply Z.pow_pos_nonneg; clear - He3'; lia).
      assert (Hsp : 2 ^ (- e3) * 2 ^ (e3 - e1) = 2 ^ (- e1)).
      { rewrite <- Z.pow_add_r by (clear - He3'; lia). f_equal. clear; lia. }
      assert (Hbig : 2 * 2 ^ 53 <= 2 ^ (- e1)).
      { change (2 * 2 ^ 53) with (2 ^ 54). apply Z.pow_le_mono_r; clear - He1 E53; lia. }
      clear - Hval Hm2hi H2e Hsp Hbig. nia.
  - assert (Hd2 : Zdigits2 m2 <= 54).
    { apply Zdigits2_lt_pow; [exact Hm2lo|clear; lia|].
      change (2 ^ 54) with (2 * 2 ^ 53). clear - Hm2hi. lia. }
    clear - Hbad Hd2 He1. lia.
Qed.

Lemma shl_align_snd mx ex ez : ez <= ex -> snd (shl_align mx ex ez) = ez.
Proof.
  intros H. unfold shl_align. destruct (ez - ex) eqn:E; cbn [snd]; lia.
Qed.

Lemma Prim2SF_finite_valid x s m e :
  Prim2SF x = S754_finite s m e -> bounded prec emax m e = true.
Proof. intros H. pose proof (Prim2SF_valid x) as V. rewrite H in V. exact V. Qed.

Lemma binary_normalize_small k :
  1 <= k < 2 ^ 53 ->
  exists m e, binary_normalize prec emax k 0 false = S754_finite false m e.
Proof.
  intros [Hk1 Hk2]. destruct k as [|p|p]; try lia. cbn [binary_normalize].
  unfold binary_round.
  assert (Hd : 1 <= Zpos (digits2_pos p) <= 53).
  { split.
    - rewrite digits2_log2. pose proof (Z.log2_nonneg (Zpos p)). lia.
    - apply (Zdigits2_lt_pow (Zpos p) 53); lia. }
  rewrite fexp64_eq. rewrite Z.add_0_r.
  replace (Z.max (Zpos (digits2_pos p) - 53) (-1074)) with (Zpos (digits2_pos p) - 53) by lia.
  remember (Zpos (digits2_pos p) - 53) as ez eqn:Hez.
  pose proof (shl_align_spec p 0 ez ltac:(lia)) as Hf.
  pose proof (shl_align_snd p 0 ez ltac:(lia)) as Hs.
  destruct (shl_align p 0 ez) as [mz ez']. cbn [fst snd] in Hf, Hs. subst ez'.
  assert (H2 : 0 < 2 ^ (0 - ez)) by (apply Z.pow_pos_nonneg; lia).
  assert (Hdz : Zdigits2 (Zpos mz) = 53).
  { rewrite Hf, Zdigits2_shift by lia. cbn [Zdigits2]. lia. }
  destruct (binary_round_aux_spec (Zpos mz) ez loc_Exact ltac:(lia)) as (m2 & _ & Hex & ->).
  rewrite fexp64_eq, Hdz in *.
  replace (Z.max (Z.max (53 + ez - 53) (-1074) - ez) 0) with 0 in * by lia.
  rewrite Z.pow_0_r, Z.div_1_r, Z.add_0_r in *.
  rewrite (Hex eq_refl (Z.mod_1_r _)).
  destruct (bra_final_pos (Zpos mz) ez ltac:(lia) ltac:(lia)) as [(q & -> & _) | [_ Hbad]].
  - eauto.
  - rewrite Hdz in Hbad. lia.
Qed.

Lemma Prim2SF_Z2F k :
  1 <= k < 2 ^ 53 -> exists m e, Prim2SF (Z2F k) = S754_finite false m e.
Proof.
  intros Hk. unfold Z2F. destruct (Z.leb_spec 0 k); [|lia].
  rewrite FloatAxioms.of_uint63_spec, Uint63.of_Z_spec.
  rewrite Z.mod_small.
  - apply binary_normalize_small; assumption.
  - assert (2 ^ 53 < Uint63.wB) by reflexivity. lia.
Qed.

Lemma SFdiv_self s m e :
  SF64div (S754_finite s m e) (S754_finite s m e) = S754_finite false 4503599627370496 (-52).
Proof.
  unfold SF64div, SFdiv, SFdiv_core_binary. cbv zeta.
  replace (Zdigits2 (Zpos m) + e - (Zdigits2 (Zpos m) + e)) with 0 by lia.
  replace (e - e) with 0 by lia.
  change (Z.min (fexp prec emax 0) 0) with (-53).
  change (0 - -53) with 53.
  cbv iota beta.
  replace (Z.div_eucl (Z.shiftl (Zpos m) 53) (Zpos m)) with (2 ^ 53, 0).
  - rewrite new_location_zero. replace (xorb s s) with false by (destruct s; reflexivity).
    vm_compute. reflexivity.
  - assert (Hdm := Z.div_mod (Z.shiftl (Zpos m) 53) (Zpos m) ltac:(lia)).
    assert (Hd : Z.shiftl (Zpos m) 53 / Zpos m = 2 ^ 53).
    { rewrite Z.shiftl_mul_pow2 by lia. replace (Zpos m * 2 ^ 53) with (2 ^ 53 * Zpos m) by ring. apply Z.div_mul. lia. }
    assert (Hm : Z.shiftl (Zpos m) 53 mod Zpos m = 0).
    { rewrite Z.shiftl_mul_pow2 by lia. replace (Zpos m * 2 ^ 53) with (2 ^ 53 * Zpos m) by ring. apply Z.mod_mul. lia. }
    unfold Z.div, Z.modulo in Hd, Hm.
    destruct (Z.div_eucl (Z.shiftl (Zpos m) 53) (Zpos m)) as [q r]. now subst.
Qed.

Lemma float_div_self x s m e : Prim2SF x = S754_finite s m e -> (x / x)%float = 1%float.
Proof.
  intros H. apply Prim2SF_inj. rewrite FloatAxioms.div_spec, H, SFdiv_self. reflexivity.
Qed.

Lemma float_zero_div y m e :
  Prim2SF y = S754_finite false m e -> (0 / y)%float = 0%float.
Proof.
  intros H. apply Prim2SF_inj. rewrite FloatAxioms.div_spec, H. reflexivity.
Qed.

Lemma Prim2SF_zero : Prim2SF 0%float = S754_zero false.
Proof. reflexivity. Qed.
Lemma Prim2SF_one : Prim2SF 1%float = S754_finite false 4503599627370496 (-52).
Proof. reflexivity. Qed.

Lemma SF_int_below_one r : below_one r -> SF_int r = Ok 0.
Proof.
  intros [-> | (p & e & -> & He & Hp)]; [reflexivity|].
  unfold SF_int. destruct (Z.leb_spec 0 e); [lia|]. cbn [cond_Zopp].
  f_equal. apply Z.div_small. lia.
Qed.

Lemma float_int_div_lt x y :
  (0 <=? x)%float = true -> (x <? y)%float = true ->
  py_fdiv x y = Ok (x / y)%float /\ py_int (x / y)%float = Ok 0.
Proof.
  rewrite FloatAxioms.leb_spec, FloatAxioms.ltb_spec, Prim2SF_zero. intros H0 Hlt.
  unfold py_fdiv, py_int. rewrite FloatAxioms.eqb_spec, FloatAxioms.div_spec, Prim2SF_zero.
  pose proof (Prim2SF_valid x) as Vx. pose proof (Prim2SF_valid y) as Vy.
  destruct (Prim2SF x) as [sx|sx| |sx mx ex], (Prim2SF y) as [sy|sy| |sy my ey];
    try discriminate; try (destruct sx; discriminate); try (destruct sy; discriminate);
    try (destruct sx, sy; discriminate).
  - destruct sy; [discriminate|]. split; reflexivity.
  - destruct sy; [destruct sx; discriminate|]. split; reflexivity.
  - destruct sx; [discriminate|]. destruct sy; [discriminate|]. split; reflexivity.
  - destruct sx; [discriminate|]. destruct sy; [discriminate|].
    split; [reflexivity|]. apply SF_int_below_one. apply SFdiv_lt_one; assumption.
Qed.

Lemma ord_bound t : unit_param t -> 0 <= ord t < 1024 * 2 ^ 53.
Proof.
  unfold ord. intros [-> | (m & e & H & He)]; [lia|].
  pose proof (Prim2SF_finite_valid _ _ _ _ H) as V. rewrite H.
  apply bounded_facts in V. destruct V as (Re & Hm & _).
  assert (2 ^ 53 = 9007199254740992) by reflexivity. nia.
Qed.

Lemma SFltb_one_false m e :
  SFltb (S754_finite false 4503599627370496 (-52)) (S754_finite false m e) = false -> e <= -52.
Proof.
  unfold SFltb, SFcompare. destruct (Z.compare_spec (-52) e); try discriminate; lia.
Qed.

Lemma add_progress t d :
  unit_param t -> step_ok d = true -> (1 <? t + d)%float = false ->
  unit_param (t + d)%float /\ ord t < ord (t + d)%float.
Proof.
  intros Ht Hd. unfold step_ok in Hd.
  destruct (Prim2SF d) as [| | |sd md ed] eqn:Ed; try discriminate.
  destruct sd; [discriminate|]. apply andb_true_iff in Hd. destruct Hd as [Hed Hmd].
  apply Z.leb_le in Hed, Hmd.
  pose proof (Prim2SF_finite_valid _ _ _ _ Ed) as Vd.
  rewrite FloatAxioms.ltb_spec, Prim2SF_one. unfold unit_param, ord. rewrite FloatAxioms.add_spec, Ed.
  destruct Ht as [Ht | (mt & et & Ht & Het)]; rewrite Ht.
  - cbn [SF64add SFadd]. intros H1. apply SFltb_one_false in H1.
    split; [right; eauto|]. assert (0 < 2 ^ 53) by reflexivity. nia.
  - pose proof (Prim2SF_finite_valid _ _ _ _ Ht) as Vt.
    assert (Hulp : et <= ed \/ 2 ^ (et - ed) <= Zpos md).
    { destruct (Z_le_gt_dec et ed); [left; assumption|right].
      eapply Z.le_trans; [|exact Hmd]. apply Z.pow_le_mono_r; lia. }
    destruct (SFadd_pos_gt mt et md ed Vt Vd Hulp) as [(p & e & -> & Hcmp) | ->].
    + intros H1. apply SFltb_one_false in H1. split; [right; eauto|].
      apply bounded_facts in Vt. destruct Vt as (_ & Hm & _).
      assert (2 ^ 53 = 9007199254740992) by reflexivity.
      destruct Hcmp as [Hlt | [-> Hlt]]; [nia | lia].
    + discriminate.
Qed.

Lemma add_infinity t d :
  unit_param t -> Prim2SF d = S754_infinity false -> (1 <? t + d)%float = true.
Proof.
  intros Ht Hd. rewrite FloatAxioms.ltb_spec, FloatAxioms.add_spec, Hd, Prim2SF_one.
  destruct Ht as [-> | (m & e & -> & _)]; reflexivity.
Qed.

Lemma float_lt_le x y : (x <? y)%float = true -> (x <=? y)%float = true.
Proof.
  rewrite FloatAxioms.ltb_spec, FloatAxioms.leb_spec. unfold SFltb, SFleb.
  destruct (SFcompare (Prim2SF x) (Prim2SF y)) as [[]|]; congruence.
Qed.

Lemma SFcompare_antisym a b :
  SFcompare a b = match SFcompare b a with Some c => Some (CompOpp c) | None => None end.
Proof.
  destruct a as [sa|sa| |sa ma ea], b as [sb|sb| |sb mb eb]; cbn [SFcompare];
    try reflexivity; try (destruct sa; reflexivity); try (destruct sb; reflexivity);
    try (destruct sa, sb; reflexivity).
  assert (Hm : Pos.compare_cont Eq ma mb = CompOpp (Pos.compare_cont Eq mb ma)).
  { rewrite Pos.compare_cont_antisym. reflexivity. }
  rewrite (Z.compare_antisym eb ea), Hm.
  destruct sa, sb; try reflexivity;
    destruct (eb ?= ea)%Z; cbn; try reflexivity;
    destruct (Pos.compare_cont Eq mb ma); reflexivity.
Qed.

(** Two floats that are not [nan] are comparable. *)
Lemma float_not_le x y :
  (y <=? x)%float = false ->
  (x <? y)%float = true \/ Prim2SF x = S754_nan \/ Prim2SF y = S754_nan.
Proof.
  rewrite FloatAxioms.ltb_spec, FloatAxioms.leb_spec. unfold SFltb, SFleb.
  rewrite (SFcompare_antisym (Prim2SF x) (Prim2SF y)).
  destruct (SFcompare (Prim2SF y) (Prim2SF x)) as [[]|] eqn:E; cbn; try discriminate; auto.
  intros _. right.
  destruct (Prim2SF x) as [sa|sa| |sa ma ea], (Prim2SF y) as [sb|sb| |sb mb eb]; auto;
    cbn in E; discriminate.
Qed.

Lemma float_pos_cases x :
  (x <? 0)%float = false -> (x =? 0)%float = false ->
  (0 <? x)%float = true \/ Prim2SF x = S754_nan.
Proof.
  rewrite !FloatAxioms.ltb_spec, FloatAxioms.eqb_spec, Prim2SF_zero.
  destruct (Prim2SF x) as [s|s| |s m e]; cbn; auto; destruct s; cbn; auto; discriminate.
Qed.

Lemma py_int_nan x : Prim2SF x = S754_nan -> py_int x = Raise ValueError.
Proof. unfold py_int. now intros ->. Qed.

Lemma float_div_nan_l x y : Prim2SF x = S754_nan -> Prim2SF (x / y)%float = S754_nan.
Proof. intros H. rewrite FloatAxioms.div_spec, H. reflexivity. Qed.

Lemma float_div_nan_r x y : Prim2SF y = S754_nan -> Prim2SF (x / y)%float = S754_nan.
Proof. intros H. rewrite FloatAxioms.div_spec, H. destruct (Prim2SF x); reflexivity. Qed.

Lemma float_compare_le_one c :
  unit_param c -> (1 <? c)%float = false -> (c <=? 1)%float = true.
Proof.
  intros Hc. rewrite FloatAxioms.ltb_spec, FloatAxioms.leb_spec, Prim2SF_one.
  unfold SFltb, SFleb. rewrite (SFcompare_antisym (Prim2SF c)).
  destruct Hc as [-> | (m & e & -> & _)]; [reflexivity|].
  destruct (SFcompare _ _) as [[]|] eqn:E; cbn; try discriminate; try reflexivity.
Qed.

Lemma float_eq_one c :
  unit_param c -> (1 <? c)%float = false -> (c <? 1)%float = false -> (c =? 1)%float = true.
Proof.
  intros Hc. rewrite !FloatAxioms.ltb_spec, FloatAxioms.eqb_spec, Prim2SF_one.
  unfold SFltb, SFeqb. rewrite (SFcompare_antisym (Prim2SF c)).
  destruct Hc as [-> | (m & e & -> & _)]; [discriminate|].
  destruct (SFcompare _ _) as [[]|] eqn:E; cbn; try discriminate; try reflexivity.
Qed.

Lemma add_increases t d :
  unit_param t -> step_ok d = true -> (t <? t + d)%float = true.
Proof.
  intros Ht Hd. unfold step_ok in Hd.
  destruct (Prim2SF d) as [| | |sd md ed] eqn:Ed; try discriminate.
  destruct sd; [discriminate|]. apply andb_true_iff in Hd. destruct Hd as [Hed Hmd].
  apply Z.leb_le in Hed, Hmd.
  pose proof (Prim2SF_finite_valid _ _ _ _ Ed) as Vd.
  rewrite FloatAxioms.ltb_spec, FloatAxioms.add_spec, Ed.
  destruct Ht as [Ht | (mt & et & Ht & Het)]; rewrite Ht.
  - cbn [SF64add SFadd]. reflexivity.
  - pose proof (Prim2SF_finite_valid _ _ _ _ Ht) as Vt.
    assert (Hulp : et <= ed \/ 2 ^ (et - ed) <= Zpos md).
    { destruct (Z_le_gt_dec et ed); [left; assumption|right].
      eapply Z.le_trans; [|exact Hmd]. apply Z.pow_le_mono_r; lia. }
    destruct (SFadd_pos_gt mt et md ed Vt Vd Hulp) as [(p & e & -> & Hcmp) | ->]; [|reflexivity].
    unfold SFltb, SFcompare.
    destruct Hcmp as [Hlt | [<- Hlt]].
    + apply Z.compare_lt_iff in Hlt. now rewrite Hlt.
    + rewrite Z.compare_refl. change (Pos.compare_cont Eq mt p) with (mt ?= p)%positive.
      apply Pos.compare_lt_iff in Hlt. now rewrite Hlt.
Qed.

End Binary64.

(** ** Properties of [generate_spiral_csv.py] *)
Module SamplerFacts.

Import Binary64 Sampler.
Local Open Scope Z_scope.

(** *** The move and hold samplers *)

Section MoveFacts.

Variable math_dist : point -> point -> float.

Lemma move_loop_no_steps p0 p1 :
  move_loop p0 p1 0 (py_range (0 + 1)) = Raise ZeroDivisionError.
Proof. reflexivity. Qed.

(** C5: when the distance is strictly positive and strictly below the
    step distance, the step count [int(total / step_dist)] is 0 and
    [generate_move_points] raises [ZeroDivisionError]; and whenever it
    returns a list (for a distance that is not negative), the distance is
    zero or at least the step distance. *)
Theorem generate_move_points_short_segment (p0 p1 : point) (step_dist : float) :
  ((0 <? dist math_dist p0 p1)%float = true ->
   (dist math_dist p0 p1 <? step_dist)%float = true ->
   (q ← py_fdiv (dist math_dist p0 p1) step_dist; py_int q) = Ok 0
   /\ generate_move_points math_dist p0 p1 step_dist = Raise ZeroDivisionError)
  /\ ((dist math_dist p0 p1 <? 0)%float = false ->
      forall pts, generate_move_points math_dist p0 p1 step_dist = Ok pts ->
      (dist math_dist p0 p1 =? 0)%float = true
      \/ (step_dist <=? dist math_dist p0 p1)%float = true).
Proof.
  set (total := dist math_dist p0 p1).
  assert (A : (0 <? total)%float = true -> (total <? step_dist)%float = true ->
              (q ← py_fdiv total step_dist; py_int q) = Ok 0
              /\ generate_move_points math_dist p0 p1 step_dist = Raise ZeroDivisionError).
  { intros Hpos Hlt.
    destruct (float_int_div_lt total step_dist (float_lt_le _ _ Hpos) Hlt) as [Hq Hn].
    assert (Hz : (total =? 0)%float = false).
    { revert Hpos. rewrite FloatAxioms.ltb_spec, FloatAxioms.eqb_spec, Prim2SF_zero.
      destruct (Prim2SF total) as [s|s| |s m e]; try destruct s; cbn; intros; try discriminate; reflexivity. }
    split.
    - rewrite Hq. cbn. exact Hn.
    - unfold generate_move_points. fold total. rewrite Hz, Hq. cbn. rewrite Hn. reflexivity. }
  split; [exact A|].
  intros Hneg pts Hok.
  destruct (total =? 0)%float eqn:Hz; [left; reflexivity|right].
  destruct (step_dist <=? total)%float eqn:Hle; [reflexivity|exfalso].
  assert (Hbad : forall q, Prim2SF q = S754_nan ->
                  py_fdiv total step_dist = Ok q -> False).
  { intros q Hq Hdiv. unfold generate_move_points in Hok. fold total in Hok.
    rewrite Hz, Hdiv in Hok. cbn in Hok. rewrite (py_int_nan q Hq) in Hok. discriminate. }
  assert (Hdiv : py_fdiv total step_dist = Ok (total / step_dist)%float).
  { unfold py_fdiv. destruct (step_dist =? 0)%float eqn:Hs; [|reflexivity].
    unfold generate_move_points in Hok. fold total in Hok.
    unfold py_fdiv in Hok. rewrite Hz, Hs in Hok. discriminate. }
  destruct (float_pos_cases total Hneg Hz) as [Hpos | Hnan].
  - destruct (float_not_le total step_dist Hle) as [Hlt | [Hnan | Hnan]].
    + destruct (A Hpos Hlt) as [_ HR]. congruence.
    + apply (Hbad _ (float_div_nan_l _ step_dist Hnan) Hdiv).
    + apply (Hbad _ (float_div_nan_r total _ Hnan) Hdiv).
  - apply (Hbad _ (float_div_nan_l _ step_dist Hnan) Hdiv).
Qed.

End MoveFacts.

(** A segment of 0.05 with step 0.1 raises; one of 0.25 gives three points. *)
Lemma generate_move_points_short_segment_witness :
  ((0 <? dist euclid (0, 0, 0) (0, 0, 0.05))%float = true /\
   (dist euclid (0, 0, 0) (0, 0, 0.05) <? 0.1)%float = true /\
   generate_move_points euclid (0, 0, 0)%float (0, 0, 0.05)%float 0.1%float = Raise ZeroDivisionError)
  /\ ((dist euclid (0, 0, 0) (0, 0, 0.25) <? 0)%float = false /\
      ((dist euclid (0, 0, 0) (0, 0, 0.25) =? 0)%float = true
       \/ (0.1 <=? dist euclid (0, 0, 0) (0, 0, 0.25))%float = true)).
Proof.
  split.
  - split; [reflexivity|]. split; [reflexivity|].
    apply (generate_move_points_short_segment euclid (0, 0, 0)%float (0, 0, 0.05)%float 0.1%float);
      reflexivity.
  - split; [reflexivity|].
    apply (proj2 (generate_move_points_short_segment euclid (0, 0, 0)%float (0, 0, 0.25)%float 0.1%float)
                 eq_refl [(0, 0, 0); (0, 0, 0.125); (0, 0, 0.25)]%float).
    reflexivity.
Defined.

(** C4: two distinct points 0.05 apart with the default spacing 0.1:
    [steps] is 0 and the first [i / steps] raises [ZeroDivisionError]; no
    list is returned. *)
Theorem generate_move_points_divides_by_zero :
  (dist euclid (0, 0, 0) (0, 0, 0.05) =? 0)%float = false
  /\ generate_move_points euclid (0, 0, 0)%float (0, 0, 0.05)%float
       (move_spacing default_config) = Raise ZeroDivisionError.
Proof. split; reflexivity. Qed.

(** With the default 2.0 s and step 0.1 the hold has 20 points, while the
    exact quotient of the two binary64 numbers is below 20 and its floor is
    19.  Holding 0.3 s gives 2 points (in decimals, 0.3 / 0.1 is 3). *)
Lemma hold_points_not_floor_of_exact_quotient :
  hold_points default_config (0, 0, 15)%float (hold_time default_config)
    = Ok (replicate 20 (0, 0, 15)%float)
  /\ exact_floor_quotient (hold_time default_config) (time_step default_config) = Some 19
  /\ hold_points default_config (0, 0, 15)%float 0.3%float = Ok (replicate 2 (0, 0, 15)%float)
  /\ exact_floor_quotient 0.3%float (time_step default_config) = Some 2.
Proof. repeat split; reflexivity. Qed.

(** C6: [hold_points] returns [int(seconds / time_step)] copies of the
    point, where the quotient is the rounded binary64 quotient and [int]
    truncates toward zero (no copies when that is negative); for
    [0 <= seconds < time_step] it returns the empty list. *)
Theorem hold_points_count (cfg : Config) (p : point) (seconds : float) :
  (forall pts, hold_points cfg p seconds = Ok pts ->
     exists n, py_int (seconds / time_step cfg)%float = Ok n
               /\ pts = replicate (Z.to_nat n) p)
  /\ ((0 <=? seconds)%float = true -> (seconds <? time_step cfg)%float = true ->
      hold_points cfg p seconds = Ok []).
Proof.
  split.
  - intros pts. unfold hold_points, py_fdiv.
    destruct (time_step cfg =? 0)%float; [discriminate|]. cbn.
    destruct (py_int (seconds / time_step cfg)%float) as [n|e]; [|discriminate].
    cbn. intros [= <-]. eauto.
  - intros H0 Hlt. unfold hold_points.
    destruct (float_int_div_lt seconds (time_step cfg) H0 Hlt) as [-> Hn].
    cbn. rewrite Hn. reflexivity.
Qed.

(** Holding 0.05 s gives no point; holding 2.0 s gives 20. *)
Lemma hold_points_count_witness :
  (0 <=? 0.05)%float = true /\ (0.05 <? time_step default_config)%float = true /\
  hold_points default_config (0, 0, 15)%float 0.05%float = Ok [] /\
  exists n, py_int (2.0 / time_step default_config)%float = Ok n
            /\ replicate 20 (0, 0, 15)%float = replicate (Z.to_nat n) (0, 0, 15)%float.
Proof.
  split; [reflexivity|]. split; [reflexivity|]. split.
  - apply (proj2 (hold_points_count default_config (0, 0, 15)%float 0.05%float)); reflexivity.
  - apply (proj1 (hold_points_count default_config (0, 0, 15)%float 2.0%float)). reflexivity.
Defined.

(** *** The spiral sampler *)

Section SpiralWalk.

Variables math_cos math_sin : float -> float.
Variable math_dist : point -> point -> float.
Variable cfg : Config.

Local Abbreviation spiral_position := (spiral_position math_cos math_sin cfg).
Local Abbreviation spiral_loop := (spiral_loop math_cos math_sin math_dist cfg).
Local Abbreviation generate_spiral := (generate_spiral math_cos math_sin math_dist cfg).
Local Abbreviation dist := (dist math_dist).
Local Abbreviation spiral_walk := (spiral_walk math_cos math_sin math_dist cfg).
Local Abbreviation generate_spiral_walk := (generate_spiral_walk math_cos math_sin math_dist cfg).
Local Abbreviation spaced := (spaced math_dist cfg).

Lemma spiral_walk_loop fuel acc t prev dt :
  spiral_loop fuel (acc.*2) t prev dt = walk_result <$> spiral_walk fuel acc t prev dt.
Proof.
  revert acc t prev dt. induction fuel as [|fuel IH]; intros acc t prev dt; [reflexivity|].
  cbn [Sampler.spiral_loop Sampler.spiral_walk].
  destruct (py_gt (t + dt) 1.0); [reflexivity|].
  destruct (spiral_position (t + dt)%float) as [cand|e]; [|reflexivity].
  destruct (py_ge _ _).
  - destruct (_ <? _)%float.
    + rewrite <- IH. rewrite fmap_app. reflexivity.
    + cbn. unfold walk_result. cbn. rewrite fmap_app. reflexivity.
  - apply IH.
Qed.

Lemma generate_spiral_walk_loop fuel :
  generate_spiral fuel = walk_result <$> generate_spiral_walk fuel.
Proof.
  unfold Sampler.generate_spiral, Sampler.generate_spiral_walk.
  destruct (spiral_position 0.0) as [prev|e]; [|reflexivity].
  destruct (0.0 <? 1.0)%float; [|reflexivity].
  apply (spiral_walk_loop fuel [(0.0%float, prev)]).
Qed.

Lemma spaced_snoc pts prev cand :
  spaced pts -> last pts = Some prev ->
  py_ge (dist prev cand) (spacing cfg) = true -> spaced (pts ++ [cand]).
Proof.
  intros Hs Hl Hd i p q Hp Hq.
  destruct (decide (S i < length pts)%nat) as [Hlt|Hge].
  - rewrite lookup_app_l in Hp by lia. rewrite lookup_app_l in Hq by lia. eauto.
  - assert (Hlen : S i = length pts).
    { apply lookup_lt_Some in Hq. rewrite length_app in Hq. cbn in Hq. lia. }
    rewrite lookup_app_l in Hp by lia.
    rewrite lookup_app_r in Hq by lia. rewrite Hlen, Nat.sub_diag in Hq. cbn in Hq.
    rewrite last_lookup in Hl. rewrite <- Hlen in Hl. cbn in Hl. congruence.
Qed.

Lemma spiral_loop_spaced fuel : forall pts t prev dt out,
  last pts = Some prev -> spaced pts ->
  spiral_loop fuel pts t prev dt = Some (Ok out) ->
  spaced out /\ exists rest, out = pts ++ rest.
Proof.
  induction fuel as [|fuel IH]; intros pts t prev dt out Hl Hs; [discriminate|].
  cbn [Sampler.spiral_loop].
  destruct (py_gt (t + dt) 1.0).
  { intros [= <-]. split; [assumption|]. exists []. now rewrite app_nil_r. }
  destruct (spiral_position (t + dt)%float) as [cand|e]; [|discriminate].
  destruct (py_ge _ _) eqn:Hd.
  - pose proof (spaced_snoc _ _ _ Hs Hl Hd) as Hs'.
    destruct (_ <? _)%float.
    + intros H. apply IH in H; [|apply last_snoc|assumption].
      destruct H as (Ho & rest & ->). split; [assumption|].
      exists (cand :: rest). now rewrite <- app_assoc.
    + intros [= <-]. split; [assumption|]. eauto.
  - apply IH; assumption.
Qed.

(** C9: every list [generate_spiral] returns starts with
    [spiral_position 0.0], and each pair of consecutive points passed the
    test [dist(prev, cand) >= spacing]. *)
Theorem generate_spiral_spaced fuel pts :
  generate_spiral fuel = Some (Ok pts) ->
  exists p0 rest, spiral_position 0.0 = Ok p0 /\ pts = p0 :: rest /\ spaced pts.
Proof.
  unfold Sampler.generate_spiral.
  destruct (spiral_position 0.0) as [p0|e]; [|discriminate].
  change (0.0 <? 1.0)%float with true. cbn iota.
  intros H. apply spiral_loop_spaced in H.
  - destruct H as (Hs & rest & ->). exists p0, rest. auto.
  - reflexivity.
  - intros [|i] p q Hp Hq; discriminate.
Qed.

End SpiralWalk.

(** The straight climb of [line_config] with spacing 3: four points. *)
Lemma generate_spiral_spaced_witness :
  exists pts, generate_spiral cos0 sin0 euclid line_config 100 = Some (Ok pts) /\
  length pts = 4%nat /\
  exists p0 rest, spiral_position cos0 sin0 line_config 0.0 = Ok p0 /\ pts = p0 :: rest /\
                  spaced euclid line_config pts.
Proof.
  eexists. split; [vm_compute; reflexivity|]. split; [reflexivity|].
  apply (generate_spiral_spaced cos0 sin0 euclid line_config 100). vm_compute. reflexivity.
Defined.

Lemma check_dts_seed : check_dts 1774 0.0001 = true.
Proof. vm_compute. reflexivity. Qed.

Lemma growth_S k : growth (S k) = (growth k * 1.5)%float.
Proof. reflexivity. Qed.

Section SpiralTermination.

Variables math_cos math_sin : float -> float.
Variable math_dist : point -> point -> float.
Variable cfg : Config.

Local Abbreviation spiral_position := (spiral_position math_cos math_sin cfg).
Local Abbreviation spiral_walk := (spiral_walk math_cos math_sin math_dist cfg).
Local Abbreviation on_curve := (on_curve math_cos math_sin cfg).

Lemma grown_snoc acc t prev c cand k :
  grown acc -> last acc = Some (t, prev) -> (t <? c)%float = true ->
  c = (t + growth k)%float -> grown (acc ++ [(c, cand)]).
Proof.
  intros Hg Hl Hlt Hc i tp tq Hp Hq.
  destruct (decide (S i < length acc)%nat) as [Hi|Hi].
  - rewrite lookup_app_l in Hp by lia. rewrite lookup_app_l in Hq by lia. eauto.
  - assert (Hlen : S i = length acc).
    { apply lookup_lt_Some in Hq. rewrite length_app in Hq. cbn in Hq. lia. }
    rewrite lookup_app_l in Hp by lia.
    rewrite lookup_app_r in Hq by lia. rewrite Hlen, Nat.sub_diag in Hq. cbn in Hq.
    rewrite last_lookup in Hl. rewrite <- Hlen in Hl. cbn in Hl.
    assert (tp = (t, prev)) by congruence. assert (tq = (c, cand)) by congruence.
    subst tp tq. cbn. eauto.
Qed.

Lemma spiral_walk_total (n : nat) : forall acc t prev,
  unit_param t -> last acc = Some (t, prev) -> Forall on_curve acc -> grown acc ->
  1024 * 2 ^ 53 - ord t <= Z.of_nat n ->
  forall m dt k, check_dts m dt = true -> dt = growth k ->
  exists fuel acc' ex,
    spiral_walk fuel acc t prev dt = Some (acc', ex) /\
    Forall on_curve acc' /\ grown acc' /\ exit_ok acc' ex.
Proof.
  induction n as [|n IHn]; intros acc t prev Ht Hl Hc Hg Hn.
  { pose proof (ord_bound t Ht). lia. }
  assert (Hbeyond : forall dt k, dt = growth k -> (1 <? t + dt)%float = true ->
            exists fuel acc' ex,
              spiral_walk fuel acc t prev dt = Some (acc', ex) /\
              Forall on_curve acc' /\ grown acc' /\ exit_ok acc' ex).
  { intros dt k Hk H1. exists 1%nat, acc, (CandidateBeyond (t + dt)).
    cbn [Sampler.spiral_walk]. unfold py_gt. rewrite H1.
    split; [reflexivity|]. split; [assumption|]. split; [assumption|].
    split; [assumption|]. exists (t, prev), k. subst dt. auto. }
  induction m as [|m IHm]; intros dt k Hm Hk.
  - apply (Hbeyond dt k Hk). apply (add_infinity t dt Ht).
    cbn in Hm. destruct (Prim2SF dt) as [| [] | |]; try discriminate. reflexivity.
  - cbn [check_dts] in Hm. apply andb_true_iff in Hm. destruct Hm as [Hstep Hm].
    destruct (1 <? t + dt)%float eqn:H1; [apply (Hbeyond dt k Hk H1)|].
    destruct (add_progress t dt Ht Hstep H1) as [Hu Hord].
    pose proof (add_increases t dt Ht Hstep) as Hlt.
    pose proof (float_compare_le_one _ Hu H1) as Hle.
    destruct (spiral_position (t + dt)%float) as [cand|e] eqn:Hpos.
    + destruct (py_ge (dist math_dist prev cand) (spacing cfg)) eqn:Hd.
      * assert (Hc' : Forall on_curve (acc ++ [((t + dt)%float, cand)])).
        { apply Forall_app. split; [assumption|]. constructor; [|constructor]. split; assumption. }
        assert (Hg' : grown (acc ++ [((t + dt)%float, cand)])).
        { apply (grown_snoc acc t prev _ cand k Hg Hl Hlt). now rewrite Hk. }
        destruct (t + dt <? 1)%float eqn:Hin.
        -- destruct (IHn (acc ++ [((t + dt)%float, cand)]) (t + dt)%float cand Hu
                       (last_snoc _ _) Hc' Hg' ltac:(lia) 1774%nat 0.0001%float 0%nat
                       check_dts_seed eq_refl)
             as (fuel & acc' & ex & Hw & H).
           exists (S fuel), acc', ex. split; [|exact H].
           cbn [Sampler.spiral_walk]. unfold py_gt. rewrite H1, Hpos, Hd, Hin. exact Hw.
        -- exists 1%nat, (acc ++ [((t + dt)%float, cand)]), GuardFailed.
           cbn [Sampler.spiral_walk]. unfold py_gt. rewrite H1, Hpos, Hd, Hin.
           split; [reflexivity|]. split; [assumption|]. split; [assumption|].
           exists ((t + dt)%float, cand). split; [apply last_snoc|].
           apply float_eq_one; assumption.
      * destruct (IHm (dt * 1.5)%float (S k) Hm) as (fuel & acc' & ex & Hw & H).
        { rewrite growth_S. congruence. }
        exists (S fuel), acc', ex. split; [|exact H].
        cbn [Sampler.spiral_walk]. unfold py_gt. rewrite H1, Hpos, Hd. exact Hw.
    + exists 1%nat, acc, (Raised e).
      cbn [Sampler.spiral_walk]. unfold py_gt. rewrite H1, Hpos.
      split; [reflexivity|]. split; [assumption|]. split; [assumption|]. exact I.
Qed.


End SpiralTermination.

(** *** The shape of the segments and of the trajectory *)

Lemma move_loop_ok p0 p1 steps idxs :
  steps <> 0 ->
  move_loop p0 p1 steps idxs = Ok ((fun i => along p0 p1 (Z2F i / Z2F steps)%float) <$> idxs).
Proof.
  intros Hs. induction idxs as [|i idxs IH]; [reflexivity|].
  cbn [move_loop]. unfold move_point at 1, py_truediv.
  destruct (Z.eqb_spec steps 0) as [?|_]; [contradiction|].
  cbn. rewrite IH. reflexivity.
Qed.

Lemma py_range_length n : 0 <= n -> length (py_range n) = Z.to_nat n.
Proof. intros _. unfold py_range. rewrite length_fmap, length_seq. reflexivity. Qed.

Lemma py_range_lookup n i : 0 <= i < n -> py_range n !! Z.to_nat i = Some i.
Proof.
  intros H. unfold py_range. rewrite list_lookup_fmap, lookup_seq_lt by lia.
  cbn. f_equal. lia.
Qed.

Lemma py_range_empty n : n <= 0 -> py_range n = [].
Proof. intros H. unfold py_range. replace (Z.to_nat n) with 0%nat by lia. reflexivity. Qed.

Section MoveShape.

Variable math_dist : point -> point -> float.

(** X1: the points of a move, when the distance is not zero and a list is
    returned: [steps = int(total / step_dist)] is not zero and the list is
    the line evaluated at [i / steps] for [i] in [range(steps + 1)].  For a
    negative [steps] that is the empty list; for a positive one below 2^53
    there are [steps + 1] points, the first at parameter exactly 0 and the
    last at parameter exactly 1. *)
Theorem generate_move_points_shape p0 p1 step_dist pts :
  (dist math_dist p0 p1 =? 0)%float = false ->
  generate_move_points math_dist p0 p1 step_dist = Ok pts ->
  exists steps,
    py_int (dist math_dist p0 p1 / step_dist)%float = Ok steps /\ steps <> 0 /\
    pts = (fun i => along p0 p1 (Z2F i / Z2F steps)%float) <$> py_range (steps + 1) /\
    (steps < 0 -> pts = []) /\
    (0 < steps < 2 ^ 53 ->
       length pts = S (Z.to_nat steps) /\
       head pts = Some (along p0 p1 0) /\ last pts = Some (along p0 p1 1)).
Proof.
  intros Hz. unfold generate_move_points, py_fdiv. rewrite Hz.
  destruct (step_dist =? 0)%float; [discriminate|]. cbn [mbind res_bind].
  destruct (py_int (dist math_dist p0 p1 / step_dist)%float) as [steps|e]; [|discriminate].
  cbn [mbind res_bind]. intros H. exists steps. split; [reflexivity|].
  assert (Hs : steps <> 0).
  { intros ->. discriminate. }
  rewrite (move_loop_ok _ _ _ _ Hs) in H. injection H as <-.
  split; [assumption|]. split; [reflexivity|]. split.
  - intros Hneg. rewrite py_range_empty by lia. reflexivity.
  - intros Hpos. destruct (Prim2SF_Z2F steps ltac:(lia)) as (m & e & Hm).
    split; [|split].
    + rewrite length_fmap, py_range_length by lia. lia.
    + rewrite head_lookup, list_lookup_fmap.
      pose proof (py_range_lookup (steps + 1) 0 ltac:(lia)) as H0.
      change (Z.to_nat 0) with 0%nat in H0. rewrite H0. cbn.
      change (Z2F 0) with 0%float. rewrite (float_zero_div _ _ _ Hm). reflexivity.
    + rewrite last_lookup, length_fmap, py_range_length by lia.
      replace (Init.Nat.pred (Z.to_nat (steps + 1))) with (Z.to_nat steps) by lia.
      rewrite list_lookup_fmap, py_range_lookup by lia. cbn.
      rewrite (float_div_self _ _ _ _ Hm). reflexivity.
Qed.

End MoveShape.

(** A segment of 0.25 with step 0.1: two steps, three points. *)
Lemma generate_move_points_shape_witness :
  exists steps,
    py_int (dist euclid (0, 0, 0) (0, 0, 0.25) / 0.1)%float = Ok steps /\ steps <> 0 /\
    [(0, 0, 0); (0, 0, 0.125); (0, 0, 0.25)]%float
      = (fun i => along (0, 0, 0)%float (0, 0, 0.25)%float (Z2F i / Z2F steps)%float)
          <$> py_range (steps + 1).
Proof.
  destruct (generate_move_points_shape euclid (0, 0, 0)%float (0, 0, 0.25)%float 0.1%float
              [(0, 0, 0); (0, 0, 0.125); (0, 0, 0.25)]%float eq_refl eq_refl)
    as (steps & H1 & H2 & H3 & _).
  exists steps. auto.
Defined.

(** X2: the climb of the default mission: 151 points from the ground to
    15 m, the second at 0.1 m. *)
Theorem default_rise_segment :
  exists pts,
    generate_move_points euclid (0, 0, 0)%float (0, 0, h_start default_config)%float
      (move_spacing default_config) = Ok pts /\
    length pts = 151%nat /\ head pts = Some (0, 0, 0)%float /\
    last pts = Some (0, 0, 15)%float /\
    pts !! 1%nat = Some (0, 0, 0.1)%float.
Proof. eexists. split; [vm_compute; reflexivity|]. vm_compute. auto. Qed.

(** X3: a negative step distance is not rejected: the result is a segment
    with no points. *)
Theorem generate_move_points_negative_step :
  generate_move_points euclid (0, 0, 0)%float (0, 0, 0.25)%float (-0.1)%float = Ok [].
Proof. vm_compute. reflexivity. Qed.

Lemma generate_spiral_starts math_cos math_sin math_dist cfg fuel pts :
  generate_spiral math_cos math_sin math_dist cfg fuel = Some (Ok pts) ->
  exists p0 rest, spiral_position math_cos math_sin cfg 0 = Ok p0 /\ pts = p0 :: rest.
Proof.
  unfold generate_spiral.
  destruct (spiral_position math_cos math_sin cfg 0.0) as [p0|e]; [|discriminate].
  change (0.0 <? 1.0)%float with true. cbn iota.
  intros H. apply spiral_loop_spaced in H.
  - destruct H as (_ & rest & ->). exists p0, rest. auto.
  - reflexivity.
  - intros [|i] p q Hp Hq; discriminate.
Qed.

Section SpiralShape.

Variables math_cos math_sin : float -> float.
Variable math_dist : point -> point -> float.
Variable cfg : Config.

Lemma spiral_points_indexable fuel pts :
  generate_spiral math_cos math_sin math_dist cfg fuel = Some (Ok pts) ->
  exists first final,
    py_index pts 0 = Ok first /\ py_index pts (-1) = Ok final /\
    spiral_position math_cos math_sin cfg 0 = Ok first /\ last pts = Some final.
Proof.
  intros H. destruct (generate_spiral_starts _ _ _ _ _ _ H) as (p0 & rest & Hp0 & ->).
  destruct (last (p0 :: rest)) as [final|] eqn:Hl.
  - exists p0, final. split; [reflexivity|]. split; [|auto].
    unfold py_index. cbn [Z.ltb Z.compare]. change (-1 <? 0) with true. cbv iota.
    destruct (Z.ltb_spec (-1 + Z.of_nat (length (p0 :: rest))) 0) as [Hlt|_].
    { cbn [length] in Hlt. lia. }
    rewrite last_lookup in Hl.
    replace (Z.to_nat (-1 + Z.of_nat (length (p0 :: rest)))) with (Init.Nat.pred (length (p0 :: rest))) by (cbn [length]; lia).
    rewrite Hl. reflexivity.
  - rewrite last_lookup in Hl. cbn in Hl. apply lookup_ge_None in Hl. cbn in Hl. lia.
Qed.

(** X4: the list [generate_spiral] returns is never empty, so
    [spiral_pts[0]] and [spiral_pts[-1]] do not raise; the first is the
    curve at 0. *)
Theorem generate_spiral_indexable fuel pts :
  generate_spiral math_cos math_sin math_dist cfg fuel = Some (Ok pts) ->
  exists first final,
    py_index pts 0 = Ok first /\ py_index pts (-1) = Ok final /\
    spiral_position math_cos math_sin cfg 0 = Ok first /\ last pts = Some final.
Proof. apply spiral_points_indexable. Qed.

(** X5: a trajectory that is built has the seven segments of modes 10, 20,
    30, 40, 50, 60, 70 in this order; the segment of mode 50 is the spiral,
    the holds of modes 40 and 60 repeat its first and last point, and the
    hold of mode 20 repeats the point above the origin. *)
Theorem build_trajectory_modes fuel trajectory :
  build_trajectory math_cos math_sin math_dist cfg fuel = Some (Ok trajectory) ->
  trajectory.*2 = [10; 20; 30; 40; 50; 60; 70] /\
  exists rise h20 m30 h40 spiral_pts h60 m70 start_pt end_pt,
    trajectory = [(rise, 10); (h20, 20); (m30, 30); (h40, 40); (spiral_pts, 50); (h60, 60); (m70, 70)] /\
    generate_spiral math_cos math_sin math_dist cfg fuel = Some (Ok spiral_pts) /\
    head spiral_pts = Some start_pt /\ last spiral_pts = Some end_pt /\
    Forall (fun p => p = start_pt) h40 /\ Forall (fun p => p = end_pt) h60 /\
    Forall (fun p => p = (0, 0, h_start cfg)%float) h20.
Proof.
  unfold build_trajectory.
  destruct (generate_move_points math_dist _ _ _) as [rise|]; [|discriminate].
  destruct (hold_points cfg (0, 0, h_start cfg)%float (hold_time cfg)) as [h20|] eqn:Eh20; [|discriminate].
  destruct (generate_spiral math_cos math_sin math_dist cfg fuel) as [[spiral_pts|]|] eqn:Es; try discriminate.
  destruct (spiral_points_indexable _ _ Es) as (start_pt & end_pt & H0 & H1 & Hfirst & Hlast).
  rewrite H0. cbn [mbind res_bind].
  destruct (generate_move_points math_dist _ start_pt _) as [m30|]; [|discriminate]. cbn [mbind res_bind].
  destruct (hold_points cfg start_pt (hold_time cfg)) as [h40|] eqn:Eh40; [|discriminate]. cbn [mbind res_bind].
  rewrite H1. cbn [mbind res_bind].
  destruct (hold_points cfg end_pt (hold_time cfg)) as [h60|] eqn:Eh60; [|discriminate]. cbn [mbind res_bind].
  destruct (generate_move_points math_dist end_pt _ _) as [m70|]; [|discriminate]. cbn [mbind res_bind].
  intros [= <-]. split; [reflexivity|].
  exists rise, h20, m30, h40, spiral_pts, h60, m70, start_pt, end_pt.
  split; [reflexivity|]. split; [reflexivity|].
  assert (Hhold : forall p s pts, hold_points cfg p s = Ok pts -> Forall (fun q => q = p) pts).
  { intros p s pts Hh. unfold hold_points in Hh.
    destruct (py_fdiv s (time_step cfg)) as [q|]; [|discriminate]. cbn [mbind res_bind] in Hh.
    destruct (py_int q) as [n|]; [|discriminate]. injection Hh as <-.
    apply Forall_replicate. reflexivity. }
  split.
  { destruct (generate_spiral_starts _ _ _ _ _ _ Es) as (p0 & rest & Hp0 & ->).
    cbn. congruence. }
  split; [assumption|]. repeat split; eauto.
Qed.

End SpiralShape.

(** The straight climb of [line_config]. *)
Lemma generate_spiral_indexable_witness :
  exists pts first final,
    generate_spiral cos0 sin0 euclid line_config 100 = Some (Ok pts) /\
    py_index pts 0 = Ok first /\ py_index pts (-1) = Ok final.
Proof.
  eexists. 
  assert (H : generate_spiral cos0 sin0 euclid line_config 100
              = Some (Ok (match generate_spiral cos0 sin0 euclid line_config 100 with
                          | Some (Ok pts) => pts | _ => [] end)))
    by (vm_compute; reflexivity).
  destruct (generate_spiral_indexable cos0 sin0 euclid line_config 100 _ H)
    as (first & final & H0 & H1 & _).
  exists first, final. split; [exact H|]. split; assumption.
Defined.

(** The trajectory of [line_config]. *)
Lemma build_trajectory_modes_witness :
  exists trajectory,
    build_trajectory cos0 sin0 euclid line_config 100 = Some (Ok trajectory) /\
    trajectory.*2 = [10; 20; 30; 40; 50; 60; 70].
Proof.
  eexists.
  assert (H : build_trajectory cos0 sin0 euclid line_config 100
              = Some (Ok (match build_trajectory cos0 sin0 euclid line_config 100 with
                          | Some (Ok t) => t | _ => [] end)))
    by (vm_compute; reflexivity).
  split; [exact H|].
  exact (proj1 (build_trajectory_modes cos0 sin0 euclid line_config 100 _ H)).
Defined.

(** *** The exported rows *)

Lemma all_modes_length trajectory : length (all_modes trajectory) = length (all_pts trajectory).
Proof.
  unfold all_modes, all_pts. induction trajectory as [|[pts m] rest IH]; [reflexivity|].
  cbn. rewrite !length_app, length_replicate, IH. reflexivity.
Qed.

Lemma all_colors_modes trajectory : forall cols,
  all_colors trajectory = Ok cols ->
  Forall2 (fun m col => mode_colors !! m = Some col) (all_modes trajectory) cols.
Proof.
  induction trajectory as [|[pts m] rest IH]; intros cols; cbn [all_colors].
  - intros [= <-]. constructor.
  - unfold py_getitem. cbn [snd fst]. destruct (mode_colors !! m) as [col|] eqn:Em; [|discriminate].
    cbn [mbind res_bind]. destruct (all_colors rest) as [cols'|]; [|discriminate].
    cbn [mbind res_bind]. intros [= <-].
    unfold all_modes. cbn [fmap list_fmap concat]. apply Forall2_app; [|apply IH; reflexivity].
    cbn [fst snd]. induction (length pts); constructor; auto.
Qed.

Lemma zip3_lookup {A B C} (a : list A) (b : list B) (c : list C) : forall i x y z,
  a !! i = Some x -> b !! i = Some y -> c !! i = Some z -> zip3 a b c !! i = Some (x, y, z).
Proof.
  revert b c. induction a as [|x0 a IH]; intros [|y0 b] [|z0 c] [|i] x y z; cbn; try discriminate.
  - congruence.
  - apply IH.
Qed.

Lemma zip3_length {A B C} (a : list A) (b : list B) (c : list C) :
  length b = length a -> length c = length a -> length (zip3 a b c) = length a.
Proof.
  revert b c. induction a as [|x0 a IH]; intros [|y0 b] [|z0 c]; cbn; try discriminate; auto.
Qed.

(** X6: the exported rows: one per point of the trajectory, none dropped by
    [zip]; row [i] holds the index [i], the point, the mode of its segment
    and that mode's colour from [mode_colors]. *)
Theorem export_rows_shape trajectory rows :
  export_rows trajectory = Ok rows ->
  length rows = length (all_pts trajectory) /\
  forall i p, all_pts trajectory !! i = Some p ->
    exists m col,
      all_modes trajectory !! i = Some m /\ mode_colors !! m = Some col /\
      rows !! i = Some [ CInt (Z.of_nat i); CFloat p.1.1; CFloat p.1.2; CFloat p.2; CInt m;
                         CFloat col.1.1; CFloat col.1.2; CFloat col.2 ].
Proof.
  unfold export_rows. destruct (all_colors trajectory) as [cols|] eqn:Ec; [|discriminate].
  cbn [mbind res_bind]. intros [= <-].
  pose proof (all_colors_modes _ _ Ec) as Hmc.
  pose proof (all_modes_length trajectory) as Hlm.
  pose proof (Forall2_length _ _ _ Hmc) as Hlc.
  split.
  - rewrite length_imap. apply zip3_length; congruence.
  - intros i p Hp.
    destruct (lookup_lt_is_Some_2 (all_modes trajectory) i) as [m Hm].
    { rewrite Hlm. eapply lookup_lt_Some; eauto. }
    destruct (Forall2_lookup_l _ _ _ _ _ Hmc Hm) as (col & Hcol & Hmcol).
    exists m, col. split; [assumption|]. split; [assumption|].
    rewrite list_lookup_imap.
    replace (zip3 (all_pts trajectory) (all_modes trajectory) cols !! i) with (Some (p, m, col))
      by (symmetry; apply zip3_lookup; assumption).
    reflexivity.
Qed.

(** Two segments, three rows. *)
Lemma export_rows_shape_witness :
  exists rows,
    export_rows [([(0, 0, 0); (0, 0, 0.1)]%float, 10); ([(0, 0, 0.1)%float], 20)] = Ok rows /\
    length rows = 3%nat.
Proof.
  eexists.
  assert (H : export_rows [([(0, 0, 0); (0, 0, 0.1)]%float, 10); ([(0, 0, 0.1)%float], 20)]
              = Ok (match export_rows [([(0, 0, 0); (0, 0, 0.1)]%float, 10); ([(0, 0, 0.1)%float], 20)] with
                    | Ok r => r | _ => [] end))
    by (vm_compute; reflexivity).
  split; [exact H|].
  exact (proj1 (export_rows_shape _ _ H)).
Defined.

(** X7: a segment whose mode has no entry in [mode_colors] makes the export
    raise [KeyError], even if the segment has no points. *)
Theorem export_rows_unknown_mode known pts m rest :
  Forall (fun s => is_Some (mode_colors !! s.2)) known ->
  mode_colors !! m = None ->
  export_rows (known ++ (pts, m) :: rest) = Raise (KeyError (KInt m)).
Proof.
  intros Hk Hm. unfold export_rows.
  assert (H : all_colors (known ++ (pts, m) :: rest) = Raise (KeyError (KInt m))).
  { induction Hk as [|[p0 m0] known [col Hcol] _ IH]; cbn [app all_colors]; unfold py_getitem; cbn [fst snd].
    - rewrite Hm. reflexivity.
    - cbn [snd] in Hcol. rewrite Hcol. cbn [mbind res_bind]. rewrite IH. reflexivity. }
  rewrite H. reflexivity.
Qed.

(** An empty segment of mode 80. *)
Lemma export_rows_unknown_mode_witness :
  export_rows ([([(0, 0, 0)%float], 10)] ++ ([], 80) :: []) = Raise (KeyError (KInt 80)).
Proof.
  apply (export_rows_unknown_mode [([(0, 0, 0)%float], 10)] [] 80 []).
  - repeat constructor. vm_compute. eauto.
  - vm_compute. reflexivity.
Defined.

End SamplerFacts.

(** ** Properties of [rainbow_spiral_offboard_from_csv.py] *)
Module ExecutorFacts.

Import Binary64 Sampler Executor SamplerFacts.
Local Open Scope Z_scope.

(** *** The colour interpolation *)

Lemma interpolate_color_first_last T :
  2 <= T <= 2 ^ 53 ->
  interpolate_color 0 T = Ok (1, 0, 0)%float /\
  interpolate_color (T - 1) T = Ok (0, -2.2204460492503126e-16, 1)%float.
Proof.
  intros HT. destruct (Prim2SF_Z2F (T - 1) ltac:(lia)) as (m & e & Hm).
  unfold interpolate_color. rewrite Z.max_r by lia. unfold py_truediv.
  destruct (Z.eqb_spec (T - 1) 0) as [?|_]; [lia|]. cbn [mbind res_bind].
  rewrite (float_div_self _ _ _ _ Hm).
  change (Z2F 0) with 0%float. rewrite (float_zero_div _ _ _ Hm).
  split; vm_compute; reflexivity.
Qed.

(** *** The trace monad *)

Lemma bind_unfold {A B} (m : M A) (f : A -> M B) tr :
  (m ≫= f) tr = match m tr with (tr', Ok a) => f a tr' | (tr', Raise e) => (tr', Raise e) end.
Proof. reflexivity. Qed.

Lemma adds_ret P {A} (x : A) : adds P (mret x : M A).
Proof. intros tr tr' r [= <- <-]. exists []. rewrite app_nil_r. auto. Qed.

Lemma adds_bind P {A B} (m : M A) (f : A -> M B) :
  adds P m -> (forall a, adds P (f a)) -> adds P (m ≫= f).
Proof.
  intros Hm Hf tr tr' r. rewrite bind_unfold.
  destruct (m tr) as [tr1 [a|e]] eqn:E; destruct (Hm _ _ _ E) as (n1 & -> & H1).
  - intros H2. destruct (Hf a _ _ _ H2) as (n2 & -> & H2').
    exists (n1 ++ n2). rewrite app_assoc. split; [reflexivity|]. apply Forall_app; auto.
  - intros [= <- <-]. eauto.
Qed.

Lemma adds_emit (P : event -> Prop) e : P e -> adds P (emit e).
Proof. intros He tr tr' r [= <- <-]. exists [e]. auto. Qed.

Lemma adds_lift P {A} (x : res A) : adds P (lift x).
Proof. intros tr tr' r [= <- <-]. exists []. rewrite app_nil_r. auto. Qed.

Lemma adds_call (P : event -> Prop) dev c : (forall o, P (Call c o)) -> adds P (call dev c).
Proof. intros Hc tr tr' r [= <- <-]. exists [Call c (respond dev tr c)]. auto. Qed.

Lemma adds_await_first P {A} (ok : A -> bool) stream hit :
  adds P hit -> adds P (await_first ok stream hit).
Proof. intros Hh. unfold await_first. destruct (existsb ok stream); [assumption|apply adds_ret]. Qed.

Lemma adds_if P {A} (b : bool) (m1 m2 : M A) : adds P m1 -> adds P m2 -> adds P (if b then m1 else m2).
Proof. destruct b; auto. Qed.

Lemma adds_weaken (P Q : event -> Prop) {A} (m : M A) :
  (forall e, P e -> Q e) -> adds P m -> adds Q m.
Proof.
  intros HPQ Hm tr tr' r H. destruct (Hm _ _ _ H) as (new & -> & Hn).
  exists new. split; [reflexivity|]. eapply Forall_impl; eauto.
Qed.

Lemma adds_set_matrix (P : event -> Prop) dev c :
  (forall o, P (Call (SetMatrix (light_matrix c)) o)) -> (forall code, P (Print (LightsFailed code))) ->
  adds P (set_matrix dev c).
Proof.
  intros Hc Hp tr tr' r. unfold set_matrix, call, emit.
  destruct (respond dev tr _) as [e|]; [destruct e|]; intros [= <- <-];
    try (eexists [_]; split; [reflexivity|]; repeat constructor; apply Hc).
  exists [Call (SetMatrix (light_matrix c)) (Some (LightsError code)); Print (LightsFailed code)].
  rewrite <- app_assoc. split; [reflexivity|]. repeat constructor; auto.
Qed.

Lemma adds_stop_offboard (P : event -> Prop) dev :
  (forall o, P (Call OffboardStop o)) -> (forall e, P (Print (StopFailed e))) ->
  adds P (stop_offboard dev).
Proof.
  intros Hc Hp tr tr' r. unfold stop_offboard, call, emit.
  destruct (respond dev tr _) as [e|]; intros [= <- <-].
  - exists [Call OffboardStop (Some e); Print (StopFailed e)].
    rewrite <- app_assoc. split; [reflexivity|]. repeat constructor; auto.
  - exists [Call OffboardStop None]. split; [reflexivity|]. repeat constructor; auto.
Qed.

Ltac adds_auto :=
  repeat first
    [ apply adds_ret | apply adds_lift
    | apply adds_emit; exact I
    | apply adds_call; intros; exact I
    | apply adds_set_matrix; intros; exact I
    | apply adds_stop_offboard; intros; exact I
    | apply adds_await_first
    | apply adds_if
    | apply adds_bind; [|intros] ].

Section LoopFacts.

Variable dev : Device.

Lemma adds_mode_change mode lights_on : adds loop_event (mode_change dev mode lights_on).
Proof. unfold mode_change, say. adds_auto. Qed.

Lemma adds_waypoint_step total i w st : adds loop_event (waypoint_step dev total i w st).
Proof.
  unfold waypoint_step. destruct st as [last_mode lights_on].
  destruct (position w) as [[x y] z].
  apply adds_bind; [|intros].
  { apply adds_if; [|apply adds_ret]. apply adds_bind; [apply adds_mode_change|intros; apply adds_ret]. }
  unfold update_lights. adds_auto.
Qed.

Lemma adds_fly total ws : forall i st, adds loop_event (fly dev total i ws st).
Proof.
  induction ws as [|w ws IH]; intros i st; cbn [fly]; [apply adds_ret|].
  apply adds_bind; [apply adds_waypoint_step|intros; apply IH].
Qed.

End LoopFacts.

(** *** The waypoint loop *)

Lemma setpoints_app tr1 tr2 : setpoints (tr1 ++ tr2) = setpoints tr1 ++ setpoints tr2.
Proof. apply omap_app. Qed.
Lemma matrices_app tr1 tr2 : matrices (tr1 ++ tr2) = matrices tr1 ++ matrices tr2.
Proof. apply omap_app. Qed.
Lemma commands_app tr1 tr2 : commands (tr1 ++ tr2) = commands tr1 ++ commands tr2.
Proof. apply omap_app. Qed.

Section LoopTrace.

Variable dev : Device.

Lemma mode_change_quiet mode lights_on tr tr' r :
  mode_change dev mode lights_on tr = (tr', r) ->
  setpoints tr' = setpoints tr /\ matrices tr' = matrices tr.
Proof.
  unfold mode_change, say, call, emit, lift. rewrite !bind_unfold.
  destruct (py_getitem KInt mode_descriptions mode) as [d|e]; [|intros [= <- <-]; auto].
  rewrite bind_unfold. cbn [fst snd].
  destruct ((mode =? 50) && negb lights_on).
  { rewrite bind_unfold. intros [= <- <-]. rewrite !setpoints_app, !matrices_app. cbn. rewrite !app_nil_r. auto. }
  destruct (negb (mode =? 50) && lights_on).
  - rewrite !bind_unfold. destruct (respond dev _ _); intros [= <- <-];
      rewrite !setpoints_app, !matrices_app; cbn; rewrite !app_nil_r; auto.
  - intros [= <- <-]. rewrite !setpoints_app, !matrices_app. cbn. rewrite !app_nil_r. auto.
Qed.

Lemma update_lights_ok total i tr tr' :
  update_lights dev total i tr = (tr', Ok ()) ->
  exists c, tracing_color total i = Ok c /\
            setpoints tr' = setpoints tr /\ matrices tr' = matrices tr ++ [light_matrix c].
Proof.
  unfold update_lights, tracing_color, lift. rewrite !bind_unfold.
  destruct (interpolate_color i total) as [rgb|e]; [|discriminate]. rewrite bind_unfold.
  cbn [mbind res_bind].
  destruct (color_int rgb) as [c|e]; [|discriminate].
  unfold set_matrix, call, emit. intros H. exists c. split; [reflexivity|].
  destruct (respond dev tr _) as [e|]; [destruct e|]; injection H as <-; try discriminate;
    rewrite !setpoints_app, !matrices_app; cbn; rewrite ?app_nil_r; auto.
Qed.

Lemma waypoint_step_ok total i w st tr tr' st' :
  waypoint_step dev total i w st tr = (tr', Ok st') ->
  setpoints tr' = setpoints tr ++ [setpoint_of w] /\
  exists new, matrices tr' = matrices tr ++ new /\
    Forall2 (fun j m => exists c, tracing_color total j = Ok c /\ m = light_matrix c)
            (if (mode_code w =? 50) && (i mod 10 =? 0) then [i] else []) new.
Proof.
  unfold waypoint_step, setpoint_of. destruct st as [last_mode lights_on].
  destruct (position w) as [[x y] z]. rewrite bind_unfold.
  destruct ((if negb (last_mode =? mode_code w)
             then lights_on' ← mode_change dev (mode_code w) lights_on; mret (mode_code w, lights_on')
             else mret (last_mode, lights_on)) tr) as [tr1 [st1|e]] eqn:E1; [|discriminate].
  assert (H1 : setpoints tr1 = setpoints tr /\ matrices tr1 = matrices tr).
  { destruct (negb (last_mode =? mode_code w)).
    - rewrite bind_unfold in E1.
      destruct (mode_change dev (mode_code w) lights_on tr) as [tr0 [b|e]] eqn:E0; [|discriminate].
      injection E1 as <- _. eapply mode_change_quiet, E0.
    - injection E1 as <- _. auto. }
  destruct H1 as [Hs1 Hm1]. rewrite bind_unfold.
  destruct ((if (mode_code w =? 50) && (i mod 10 =? 0) then update_lights dev total i else mret ()) tr1)
    as [tr2 [[]|e]] eqn:E2; [|discriminate].
  assert (H2 : setpoints tr2 = setpoints tr1 /\
               exists new, matrices tr2 = matrices tr1 ++ new /\
                 Forall2 (fun j m => exists c, tracing_color total j = Ok c /\ m = light_matrix c)
                         (if (mode_code w =? 50) && (i mod 10 =? 0) then [i] else []) new).
  { destruct ((mode_code w =? 50) && (i mod 10 =? 0)).
    - apply update_lights_ok in E2. destruct E2 as (c & Hc & Hs & Hm).
      split; [assumption|]. exists [light_matrix c]. split; [assumption|]. repeat constructor. eauto.
    - injection E2 as <-. split; [reflexivity|]. exists []. rewrite app_nil_r. split; [reflexivity|constructor]. }
  destruct H2 as (Hs2 & new & Hm2 & Hnew).
  unfold call, emit. rewrite !bind_unfold.
  destruct (respond dev tr2 _); [discriminate|]. cbv beta iota.
  repeat (rewrite bind_unfold; cbv beta iota).
  intros [= <- <-]. rewrite !setpoints_app, !matrices_app. cbn. rewrite !app_nil_r.
  split; [congruence|]. exists new. split; [congruence|assumption].
Qed.

Lemma fly_ok total ws : forall i st tr tr',
  fly dev total i ws st tr = (tr', Ok ()) ->
  setpoints tr' = setpoints tr ++ (setpoint_of <$> ws) /\
  exists pushed, matrices tr' = matrices tr ++ pushed /\
    Forall2 (fun j m => exists c, tracing_color total j = Ok c /\ m = light_matrix c)
            (stride_indices i ws) pushed.
Proof.
  induction ws as [|w ws IH]; intros i st tr tr'; cbn [fly stride_indices].
  - intros [= <-]. rewrite !app_nil_r. split; [reflexivity|]. exists []. rewrite app_nil_r.
    split; [reflexivity|constructor].
  - rewrite bind_unfold.
    destruct (waypoint_step dev total i w st tr) as [tr1 [st1|e]] eqn:E1; [|discriminate].
    apply waypoint_step_ok in E1. destruct E1 as (Hs1 & new & Hm1 & Hnew).
    intros H. apply IH in H. destruct H as (Hs & pushed & Hm & Hp).
    split.
    + rewrite Hs, Hs1, fmap_cons, <- app_assoc. reflexivity.
    + exists (new ++ pushed). rewrite Hm, Hm1, <- app_assoc. split; [reflexivity|].
      apply Forall2_app; assumption.
Qed.

End LoopTrace.

Lemma stride_indices_spec ws : forall i j,
  j ∈ stride_indices i ws <->
  i <= j /\ j mod 10 = 0 /\ exists w, ws !! Z.to_nat (j - i) = Some w /\ mode_code w = 50.
Proof.
  induction ws as [|w ws IH]; intros i j; cbn [stride_indices].
  - split; [intros H; inversion H|]. intros (_ & _ & w & H & _). discriminate.
  - rewrite elem_of_app, IH. split.
    + intros [H | (Hle & Hmod & w' & Hw & Hm)].
      * destruct (Z.eqb_spec (mode_code w) 50) as [Hmode|]; [|inversion H].
        destruct (Z.eqb_spec (i mod 10) 0) as [Hmod|]; [|inversion H].
        cbn in H. apply list_elem_of_singleton in H. subst j.
        rewrite Z.sub_diag. split; [lia|]. split; [assumption|]. exists w. auto.
      * split; [lia|]. split; [assumption|]. exists w'. split; [|assumption].
        replace (Z.to_nat (j - i)) with (S (Z.to_nat (j - (i + 1)))) by lia. exact Hw.
    + intros (Hle & Hmod & w' & Hw & Hm).
      destruct (Z.eq_dec i j) as [->|Hne].
      * left. rewrite Z.sub_diag in Hw. cbn in Hw. injection Hw as ->.
        rewrite Hm, Hmod. cbn. apply list_elem_of_singleton. reflexivity.
      * right. split; [lia|]. split; [assumption|]. exists w'. split; [|assumption].
        replace (Z.to_nat (j - i)) with (S (Z.to_nat (j - (i + 1)))) in Hw by lia. exact Hw.
Qed.

(** *** The run *)

Lemma loop_event_after_start e : loop_event e -> after_start e.
Proof. destruct e as [[] ?| |]; cbn; auto. Qed.

Lemma adds_mission f i dev csv : adds after_start (mission f i dev csv).
Proof.
  unfold mission, say.
  apply adds_bind; [apply adds_lift|intros rows].
  apply adds_bind; [apply adds_lift|intros wps].
  apply adds_bind; [apply adds_emit; exact I|intros _].
  apply adds_bind; [apply adds_emit; exact I|intros _].
  apply adds_bind.
  { apply (adds_weaken loop_event after_start); [exact loop_event_after_start|].
    unfold fly_all. apply adds_fly. }
  intros _. adds_auto.
Qed.

Lemma bind_emit {B} e (f : unit -> M B) tr : (emit e ≫= f) tr = f () (tr ++ [e]).
Proof. reflexivity. Qed.

Lemma bind_call {B} dev c (f : unit -> M B) tr :
  (call dev c ≫= f) tr =
  match respond dev tr c with
  | None => f () (tr ++ [Call c None])
  | Some e => (tr ++ [Call c (Some e)], Raise e)
  end.
Proof. rewrite bind_unfold. unfold call. destruct (respond dev tr c); reflexivity. Qed.

Lemma bind_ret {A B} (x : A) (f : A -> M B) tr : (mret x ≫= f) tr = f x tr.
Proof. reflexivity. Qed.

Lemma bind_start_offboard {B} dev (f : bool -> M B) tr :
  (start_offboard dev ≫= f) tr =
  match respond dev tr OffboardStart with
  | None => f true (tr ++ [Call OffboardStart None])
  | Some (OffboardError code) =>
      let tr2 := ((tr ++ [Call OffboardStart (Some (OffboardError code))])
                    ++ [Print (StartFailed code)]) ++ [Print (Text "-- Disarming")] in
      match respond dev tr2 Disarm with
      | None => f false (tr2 ++ [Call Disarm None])
      | Some e => (tr2 ++ [Call Disarm (Some e)], Raise e)
      end
  | Some e => (tr ++ [Call OffboardStart (Some e)], Raise e)
  end.
Proof.
  rewrite bind_unfold. unfold start_offboard, call.
  destruct (respond dev tr OffboardStart) as [[]|]; try reflexivity.
  cbv beta iota zeta. rewrite !bind_unfold. unfold say, emit. cbv beta iota.
  rewrite !bind_unfold. cbv beta iota.
  destruct (respond dev _ Disarm); reflexivity.
Qed.

(** C7: if [offboard.start()] raised an [OffboardError] during a run, then
    the commands of the whole run are connect, arm, the initial setpoint,
    the failed start, and disarm: the failure is printed, the only setpoint
    sent is the initial (0, 0, 0, 0), and neither a waypoint, nor land, nor
    offboard stop follows.  This holds whatever the file contains. *)
Theorem offboard_start_failure_aborts f i dev addr csv tr r code :
  run f i dev addr csv [] = (tr, r) ->
  In (Call OffboardStart (Some (OffboardError code))) tr ->
  commands tr = [Connect addr; Arm; SetPositionNed 0 0 0 0; OffboardStart; Disarm]
  /\ setpoints tr = [(0, 0, 0, 0)%float]
  /\ In (Print (StartFailed code)) tr
  /\ exists o, last tr = Some (Call Disarm o).
Proof.
  intros H HIn. unfold run, say, await_first in H.
  assert (Hleaf : forall t e, (t, Raise e) = (tr, r) ->
            ~ In (Call OffboardStart (Some (OffboardError code))) t -> False).
  { intros t e [= <- _] Hn. auto. }
  rewrite bind_call in H. cbn [app] in H.
  destruct (respond dev _ (Connect addr));
    [exfalso; eapply Hleaf; [exact H|cbn; intuition discriminate]|].
  rewrite bind_emit in H. cbn [app] in H.
  destruct (existsb id (connection_state dev));
    [rewrite bind_emit in H|rewrite bind_ret in H]; cbn [app] in H;
  (rewrite bind_emit in H; cbn [app] in H;
   destruct (existsb _ (health dev));
     [rewrite bind_emit in H|rewrite bind_ret in H]; cbn [app] in H;
   (rewrite bind_emit, bind_call in H; cbn [app] in H;
    destruct (respond dev _ Arm);
      [exfalso; eapply Hleaf; [exact H|cbn; intuition discriminate]|];
    rewrite bind_emit, bind_call in H; cbn [app] in H;
    destruct (respond dev _ (SetPositionNed _ _ _ _));
      [exfalso; eapply Hleaf; [exact H|cbn; intuition discriminate]|];
    rewrite bind_emit, bind_start_offboard in H; cbv zeta in H; cbn [app] in H;
    destruct (respond dev _ OffboardStart) as [e|];
      [destruct e as [| | | |k| |c0|c0|c0|c0];
        try (exfalso; eapply Hleaf; [exact H|cbn; intuition discriminate]);
        (destruct (respond dev _ Disarm);
          cbv beta iota in H; injection H as <- <-;
          cbn in HIn;
          assert (c0 = code) by (intuition congruence); subst c0;
          cbn; intuition eauto)
      |destruct (adds_mission f i dev csv _ _ _ H) as (new & -> & Hnew);
       apply in_app_or in HIn; cbn in HIn;
       destruct HIn as [HIn|HIn]; [intuition discriminate|];
       rewrite Forall_forall in Hnew; apply list_elem_of_In, Hnew in HIn; destruct HIn])).
Qed.

(** A vehicle that refuses offboard mode with code 7. *)
Lemma offboard_start_failure_aborts_witness :
  In (Call OffboardStart (Some (OffboardError 7)))
     (run float_of_plain int_of_plain (refuses_offboard 7) mission_address (Ok trace_then_hold) []).1
  /\ commands (run float_of_plain int_of_plain (refuses_offboard 7) mission_address
                   (Ok trace_then_hold) []).1
     = [Connect mission_address; Arm; SetPositionNed 0 0 0 0; OffboardStart; Disarm].
Proof.
  split; [vm_compute; tauto|].
  refine (proj1 (offboard_start_failure_aborts float_of_plain int_of_plain (refuses_offboard 7)
                   mission_address (Ok trace_then_hold) _ (Ok ()) 7 _ _)).
  - vm_compute. reflexivity.
  - vm_compute. tauto.
Defined.


(** At the last of ten points the green channel is negative, not 0. *)
Lemma interpolate_color_last_is_off_anchor :
  last RAINBOW_COLORS = Some (0, 0, 1)%float /\
  interpolate_color (10 - 1) 10 = Ok (0, -2.2204460492503126e-16, 1)%float /\
  (-2.2204460492503126e-16 <? 0)%float = true.
Proof. vm_compute. auto. Qed.

(** C8: for [2 <= T <= 2^53], [interpolate_color 0 T] is the first anchor
    (1, 0, 0), and [interpolate_color (T-1) T] is the last anchor (0, 0, 1)
    except for a green channel of -2.2204460492503126e-16 (the rounding of
    [1.0 / 3]); the two pack to the same colour number. *)
Theorem interpolate_color_endpoints T :
  2 <= T <= 2 ^ 53 ->
  head RAINBOW_COLORS = Some (1, 0, 0)%float /\
  last RAINBOW_COLORS = Some (0, 0, 1)%float /\
  interpolate_color 0 T = Ok (1, 0, 0)%float /\
  interpolate_color (T - 1) T = Ok (0, -2.2204460492503126e-16, 1)%float /\
  color_int (0, -2.2204460492503126e-16, 1)%float = color_int (0, 0, 1)%float.
Proof.
  intros HT. destruct (interpolate_color_first_last T HT) as [H0 H1].
  split; [reflexivity|]. split; [reflexivity|]. split; [exact H0|]. split; [exact H1|].
  vm_compute. reflexivity.
Qed.

(** Ten points. *)
Lemma interpolate_color_endpoints_witness :
  2 <= 10 <= 2 ^ 53 /\
  interpolate_color 0 10 = Ok (1, 0, 0)%float /\
  interpolate_color (10 - 1) 10 = Ok (0, -2.2204460492503126e-16, 1)%float.
Proof.
  assert (H : 2 <= 10 <= 2 ^ 53) by (vm_compute; split; discriminate).
  split; [exact H|].
  destruct (interpolate_color_endpoints 10 H) as (_ & _ & H0 & H1 & _). split; assumption.
Defined.






Lemma res_bind_ok {A B} (m : res A) (f : A -> res B) b :
  m ≫= f = Ok b -> exists a, m = Ok a /\ f a = Ok b.
Proof. destruct m; [eauto|discriminate]. Qed.

Lemma py_getitem_ok {V} (d : gmap string V) k v :
  py_getitem KStr d k = Ok v -> d !! k = Some v.
Proof. unfold py_getitem. destruct (d !! k); [congruence|discriminate]. Qed.

Lemma parse_row_inv f i row w :
  parse_row f i row = Ok w ->
  exists sx sy sz x y z,
    row !! "px" = Some sx /\ row !! "py" = Some sy /\ row !! "pz" = Some sz /\
    f sx = Ok x /\ f sy = Ok y /\ f sz = Ok z /\ position w = (x, y, z).
Proof.
  unfold parse_row. intros H.
  apply res_bind_ok in H as (s0 & _ & H). apply res_bind_ok in H as (x0 & _ & H).
  apply res_bind_ok in H as (sx & Hsx & H). apply res_bind_ok in H as (x & Hx & H).
  apply res_bind_ok in H as (sy & Hsy & H). apply res_bind_ok in H as (y & Hy & H).
  apply res_bind_ok in H as (sz & Hsz & H). apply res_bind_ok in H as (z & Hz & H).
  apply res_bind_ok in H as (sm & _ & H). apply res_bind_ok in H as (m & _ & H).
  injection H as <-. apply py_getitem_ok in Hsx, Hsy, Hsz.
  exists sx, sy, sz, x, y, z. auto 10.
Qed.

Lemma parse_row_needs_px f i row w :
  row !! "px" = None -> parse_row f i row <> Ok w.
Proof.
  intros Hnone H. apply parse_row_inv in H. destruct H as (sx & ? & ? & ? & ? & ? & Hpx & _).
  congruence.
Qed.

Lemma record_of_lacks_px str_int repr_float n pmc :
  record_of str_int repr_float (csv_row n pmc) !! "px" = None.
Proof. destruct pmc as [[p m] col]. vm_compute. reflexivity. Qed.

Lemma parse_waypoints_inv f i rows : forall wps,
  parse_waypoints f i rows = Ok wps ->
  Forall2 (fun row w => parse_row f i row = Ok w) rows wps.
Proof.
  induction rows as [|row rows IH]; intros wps; cbn [parse_waypoints].
  - intros [= <-]. constructor.
  - intros H. apply res_bind_ok in H as (w & Hw & H). apply res_bind_ok in H as (ws & Hws & H).
    injection H as <-. constructor; auto.
Qed.

Lemma exported_records_unreadable str_int repr_float f i trajectory recs wps :
  exported_records str_int repr_float trajectory = Ok recs ->
  recs <> [] -> parse_waypoints f i recs <> Ok wps.
Proof.
  unfold exported_records, export_rows. intros H Hne Hp.
  apply res_bind_ok in H as (rows & Hrows & H). injection H as <-.
  apply res_bind_ok in Hrows as (cols & _ & Hrows). injection Hrows as <-.
  destruct (zip3 (all_pts trajectory) (all_modes trajectory) cols) as [|pmc rest]; [contradiction|].
  cbn [imap map] in Hp. apply parse_waypoints_inv in Hp.
  inversion Hp as [|? w ? ? Hrow _]; subst.
  eapply parse_row_needs_px; [|exact Hrow]. apply record_of_lacks_px.
Qed.

(** The exporter names its position columns [x], [y], [z]; the executor
    asks for [px].  Whatever the number formats and parsers are, the record
    the exporter writes for a single point cannot be parsed. *)
Lemma exported_records_not_consumable :
  ~ exists str_int repr_float float_of_str int_of_str recs wps,
      exported_records str_int repr_float [([(0, 0, 15)%float], 10)] = Ok recs /\
      parse_waypoints float_of_str int_of_str recs = Ok wps.
Proof.
  intros (si & rf & f & i & recs & wps & He & Hp).
  eapply exported_records_unreadable; [exact He| |exact Hp].
  unfold exported_records, export_rows in He.
  apply res_bind_ok in He as (rows & Hrows & He). injection He as <-.
  apply res_bind_ok in Hrows as (cols & Hcols & Hrows). injection Hrows as <-.
  vm_compute in Hcols. injection Hcols as <-. discriminate.
Qed.

(** C1: the executor reads each waypoint's position from the columns
    [px], [py] and [pz] of its row: when the rows parse, every row has
    these three columns, their text converts with [float], and the setpoint
    of the waypoint is those three numbers with yaw 0; and when the loop
    runs to its end, the setpoints it sent are these, one per row, in the
    order of the rows. *)
Theorem positions_read_from_px_py_pz float_of_str int_of_str rows wps :
  parse_waypoints float_of_str int_of_str rows = Ok wps ->
  Forall2 (fun row w => exists sx sy sz x y z,
             row !! "px" = Some sx /\ row !! "py" = Some sy /\ row !! "pz" = Some sz /\
             float_of_str sx = Ok x /\ float_of_str sy = Ok y /\ float_of_str sz = Ok z /\
             setpoint_of w = (x, y, z, YAW_ANGLE)) rows wps /\
  forall dev tr tr', fly_all dev wps tr = (tr', Ok ()) ->
    setpoints tr' = setpoints tr ++ (setpoint_of <$> wps).
Proof.
  intros H. split.
  - apply parse_waypoints_inv in H. eapply Forall2_impl; [exact H|].
    intros row w Hrow. apply parse_row_inv in Hrow.
    destruct Hrow as (sx & sy & sz & x & y & z & ? & ? & ? & ? & ? & ? & Hpos).
    exists sx, sy, sz, x, y, z. unfold setpoint_of. rewrite Hpos. auto 10.
  - intros dev tr tr' Hfly. unfold fly_all in Hfly.
    exact (proj1 (fly_ok dev _ _ _ _ _ _ Hfly)).
Qed.

(** The two rows of [trace_then_hold] parse, and a calm vehicle is sent
    their two positions. *)
Lemma positions_read_from_px_py_pz_witness :
  parse_waypoints float_of_plain int_of_plain trace_then_hold = Ok trace_then_hold_waypoints
  /\ setpoints (fly_all calm trace_then_hold_waypoints []).1
     = setpoints [] ++ (setpoint_of <$> trace_then_hold_waypoints).
Proof.
  split; [vm_compute; reflexivity|].
  refine (proj2 (positions_read_from_px_py_pz float_of_plain int_of_plain trace_then_hold
                   trace_then_hold_waypoints _) calm [] _ _).
  - vm_compute. reflexivity.
  - vm_compute. reflexivity.
Defined.

(** C3: a vehicle whose [follow_flight_mode] raises [LightsError] ends the
    run with that exception when the mission leaves tracing mode: the
    second waypoint is never sent and the vehicle is neither landed nor
    disarmed.  The same error from [set_matrix] is reported and the mission
    runs to the end. *)
Theorem follow_flight_mode_failure_aborts :
  run float_of_plain int_of_plain (follow_fails 3) mission_address (Ok trace_then_hold) []
  = ([ Call (Connect mission_address) None;
       Print (Text "-- Waiting for drone to connect...");
       Print (Text "-- Connected to drone!");
       Print (Text "-- Waiting for drone to have a global position estimate...");
       Print (Text "-- Global position estimate OK");
       Print (Text "-- Arming"); Call Arm None;
       Print (Text "-- Setting initial setpoint");
       Call (SetPositionNed 0 0 0 0) None;
       Print (Text "-- Starting offboard"); Call OffboardStart None;
       Print (Text "-- Performing trajectory");
       Print (Text "-- Starting trajectory");
       Print (ModeLine 50 "Tracing");
       Print (Text "-- Turning on tracing lights");
       Call (SetMatrix (light_matrix 16711680)) None;
       Call (SetPositionNed 1.5 0 (-20) 0) None;
       Sleep 0.1;
       Print (ModeLine 60 "Holding at end point");
       Print (Text "-- Lights to follow flight mode");
       Call (FollowFlightMode true) (Some (LightsError 3)) ],
     Raise (LightsError 3))
  /\ commands (run float_of_plain int_of_plain (matrix_fails 3) mission_address
                   (Ok trace_then_hold) []).1
     = [ Connect mission_address; Arm; SetPositionNed 0 0 0 0; OffboardStart;
         SetMatrix (light_matrix 16711680); SetPositionNed 1.5 0 (-20) 0;
         FollowFlightMode true; SetPositionNed 1.5 0 (-20) 0;
         Land; OffboardStop; Disarm ].
Proof. split; vm_compute; reflexivity. Qed.

Lemma bind_lift {A B} (x : res A) (f : A -> M B) tr :
  (lift x ≫= f) tr = match x with Ok a => f a tr | Raise e => (tr, Raise e) end.
Proof. rewrite bind_unfold. unfold lift. destruct x; reflexivity. Qed.

Lemma loop_event_commands new : Forall loop_event new -> Forall loop_command (commands new).
Proof.
  induction 1 as [|e new He _ IH]; [constructor|].
  destruct e as [c o| |]; cbn; try exact IH. constructor; [|exact IH]. destruct c; cbn in *; auto.
Qed.

Lemma stop_offboard_total dev tr :
  exists tr', stop_offboard dev tr = (tr', Ok ()) /\
              commands tr' = commands tr ++ [OffboardStop] /\ setpoints tr' = setpoints tr.
Proof.
  unfold stop_offboard, call, emit. destruct (respond dev tr OffboardStop) as [e|]; eexists;
    (split; [reflexivity|]); rewrite !commands_app, !setpoints_app; cbn; rewrite ?app_nil_r, <- ?app_assoc; auto.
Qed.

Lemma run_cases f i dev addr csv tr r :
  run f i dev addr csv [] = (tr, r) ->
  (exists e n, r = Raise e /\ (1 <= n <= 4)%nat /\ commands tr = take n (preflight_commands addr)
               /\ ~ In (Call OffboardStart None) tr)
  \/ (exists code, commands tr = preflight_commands addr ++ [Disarm]
                   /\ In (Call OffboardStart (Some (OffboardError code))) tr
                   /\ ~ In (Call OffboardStart None) tr)
  \/ (exists tr1, commands tr1 = preflight_commands addr /\ setpoints tr1 = [(0, 0, 0, 0)%float]
                  /\ In (Call OffboardStart None) tr1
                  /\ mission f i dev csv tr1 = (tr, r)).
Proof.
  intros H. unfold run, say, await_first in H.
  rewrite bind_call in H. cbn [app] in H.
  destruct (respond dev _ (Connect addr)) as [e|].
  { injection H as <- <-. left. exists e, 1%nat. cbn. intuition (try lia; discriminate). }
  rewrite bind_emit in H. cbn [app] in H.
  destruct (existsb id (connection_state dev));
    [rewrite bind_emit in H|rewrite bind_ret in H]; cbn [app] in H;
  (rewrite bind_emit in H; cbn [app] in H;
   destruct (existsb _ (health dev));
     [rewrite bind_emit in H|rewrite bind_ret in H]; cbn [app] in H;
   (rewrite bind_emit, bind_call in H; cbn [app] in H;
    destruct (respond dev _ Arm) as [e|];
      [injection H as <- <-; left; exists e, 2%nat; cbn; intuition (try lia; discriminate)|];
    rewrite bind_emit, bind_call in H; cbn [app] in H;
    destruct (respond dev _ (SetPositionNed _ _ _ _)) as [e|];
      [injection H as <- <-; left; exists e, 3%nat; cbn; intuition (try lia; discriminate)|];
    rewrite bind_emit, bind_start_offboard in H; cbv zeta in H; cbn [app] in H;
    destruct (respond dev _ OffboardStart) as [e|];
      [destruct e as [| | | |k| |c0|c0|c0|c0];
        try (injection H as <- <-; left; eexists _, 4%nat; cbn;
             intuition (try lia; discriminate));
        (destruct (respond dev _ Disarm);
          cbv beta iota in H; injection H as <- <-;
          right; left; exists c0; cbn; intuition discriminate)
      |right; right; eexists; split; [|split; [|split; [|exact H]]];
       [reflexivity|reflexivity|cbn; tauto]])).
Qed.

Lemma mission_ok f i dev csv tr tr' :
  mission f i dev csv tr = (tr', Ok ()) ->
  exists rows wps loop,
    csv = Ok rows /\ parse_waypoints f i rows = Ok wps /\
    commands tr' = commands tr ++ loop ++ [Land; OffboardStop; Disarm] /\
    Forall loop_command loop /\
    setpoints tr' = setpoints tr ++ (setpoint_of <$> wps).
Proof.
  unfold mission, say. rewrite bind_lift.
  destruct csv as [rows|e]; [|discriminate]. rewrite bind_lift.
  destruct (parse_waypoints f i rows) as [wps|e] eqn:Ep; [|discriminate].
  rewrite !bind_emit, bind_unfold.
  destruct (fly_all dev wps _) as [tr2 [[]|e]] eqn:Efly; [|discriminate].
  unfold fly_all in Efly.
  pose proof (proj1 (fly_ok dev _ _ _ _ _ _ Efly)) as Hsp.
  destruct (adds_fly dev _ _ _ _ _ _ _ Efly) as (new & -> & Hnew).
  rewrite bind_emit, bind_call. destruct (respond dev _ Land); [discriminate|].
  rewrite bind_unfold. unfold await_first.
  match goal with |- context [if ?b then _ else _] => destruct b end;
  (change (mret () : M ()) with (fun tr : list event => (tr, Ok ())); cbv beta iota;
   rewrite bind_emit, bind_unfold;
   match goal with |- context [stop_offboard dev ?t] =>
     destruct (stop_offboard_total dev t) as (tr3 & -> & Hc3 & Hs3) end;
   cbv beta iota; rewrite bind_emit; unfold call;
   destruct (respond dev _ Disarm); [discriminate|];
   intros [= <-]; exists rows, wps, (commands new);
   split; [reflexivity|]; split; [exact Ep|];
   rewrite !setpoints_app in Hsp; rewrite !commands_app in Hc3;
   rewrite !commands_app, !setpoints_app, Hc3, Hs3, !setpoints_app, Hsp;
   cbn; rewrite ?app_nil_r;
   split; [rewrite <- !app_assoc; reflexivity|];
   split; [apply loop_event_commands, Hnew|reflexivity]).
Qed.

Section RunFacts.

Variable float_of_str : string -> res float.
Variable int_of_str : string -> res Z.
Variable dev : Device.

(** X8: a run that returns normally either stopped at a refused offboard
    start (connect, arm, initial setpoint, start, disarm), or sent connect,
    arm, the initial setpoint and start, then only setpoints and light
    commands, then land, offboard stop and disarm; in that case the
    setpoints are the initial one and one per waypoint of the file. *)
Theorem successful_run_commands addr csv tr :
  run float_of_str int_of_str dev addr csv [] = (tr, Ok ()) ->
  (commands tr = preflight_commands addr ++ [Disarm] /\
   exists code, In (Call OffboardStart (Some (OffboardError code))) tr)
  \/ exists rows wps loop,
       csv = Ok rows /\ parse_waypoints float_of_str int_of_str rows = Ok wps /\
       commands tr = preflight_commands addr ++ loop ++ [Land; OffboardStop; Disarm] /\
       Forall loop_command loop /\
       setpoints tr = (0, 0, 0, 0)%float :: (setpoint_of <$> wps).
Proof.
  intros H. destruct (run_cases _ _ _ _ _ _ _ H)
    as [(e & n & He & _)|[(code & Hc & Hin & _)|(tr1 & Hc1 & Hs1 & _ & Hm)]].
  - discriminate.
  - left. eauto.
  - right. destruct (mission_ok _ _ _ _ _ _ Hm) as (rows & wps & loop & ? & ? & Hc & Hl & Hs).
    exists rows, wps, loop. rewrite Hc, Hs, Hc1, Hs1. auto.
Qed.

(** X9: if offboard mode started and the waypoint file cannot be read, or a
    row cannot be parsed, the run ends with that exception after connect,
    arm, initial setpoint and start: no land and no disarm is sent. *)
Theorem unreadable_file_leaves_vehicle_flying addr csv e tr r :
  run float_of_str int_of_str dev addr csv [] = (tr, r) ->
  In (Call OffboardStart None) tr ->
  csv = Raise e \/ (exists rows, csv = Ok rows /\ parse_waypoints float_of_str int_of_str rows = Raise e) ->
  r = Raise e /\ commands tr = preflight_commands addr.
Proof.
  intros H Hin Hcsv. destruct (run_cases _ _ _ _ _ _ _ H)
    as [(e' & n & _ & _ & _ & Hno)|[(code & _ & _ & Hno)|(tr1 & Hc1 & _ & _ & Hm)]];
    try contradiction.
  unfold mission in Hm. rewrite bind_lift in Hm.
  destruct Hcsv as [->|(rows & -> & Hp)].
  - injection Hm as <- <-. auto.
  - rewrite bind_lift, Hp in Hm. injection Hm as <- <-. auto.
Qed.


(** X11: the guarded [offboard.stop()]: whatever it raises is printed and the
    run goes on to disarm. *)
Theorem stop_offboard_never_raises tr :
  (stop_offboard dev tr).2 = Ok () /\
  commands (stop_offboard dev tr).1 = commands tr ++ [OffboardStop] /\
  forall e, respond dev tr OffboardStop = Some e ->
            (stop_offboard dev tr).1 = tr ++ [Call OffboardStop (Some e); Print (StopFailed e)].
Proof.
  unfold stop_offboard, call, emit.
  destruct (respond dev tr OffboardStop) as [e|]; cbn [fst snd];
    rewrite !commands_app; cbn; rewrite ?app_nil_r.
  - split; [reflexivity|]. split; [reflexivity|]. intros e' [= <-]. rewrite <- app_assoc. reflexivity.
  - split; [reflexivity|]. split; [reflexivity|]. intros e' [=].
Qed.

(** X12: a waypoint whose mode has no description, met at a mode change,
    raises [KeyError] before anything is printed or sent. *)
Theorem unknown_mode_raises_key_error total i w last_mode lights_on tr :
  mode_descriptions !! mode_code w = None -> last_mode <> mode_code w ->
  waypoint_step dev total i w (last_mode, lights_on) tr
  = (tr, Raise (KeyError (KInt (mode_code w)))).
Proof.
  intros Hm Hne. unfold waypoint_step. destruct (position w) as [[x y] z].
  destruct (Z.eqb_spec last_mode (mode_code w)) as [?|_]; [contradiction|]. cbn [negb].
  rewrite bind_unfold, bind_unfold. unfold mode_change. rewrite bind_lift.
  unfold py_getitem. rewrite Hm. reflexivity.
Qed.

(** X13: the loop keeps [lights_on] equal to [last_mode == 50]: if it holds
    before an iteration that completes, afterwards [last_mode] is the
    waypoint's mode and [lights_on] tells whether that mode is 50. *)
Theorem lights_follow_tracing_mode total i w st tr tr' st' :
  st.2 = (st.1 =? 50) ->
  waypoint_step dev total i w st tr = (tr', Ok st') ->
  st'.1 = mode_code w /\ st'.2 = (mode_code w =? 50).
Proof.
  destruct st as [last_mode lights_on]. cbn [fst snd]. intros Hinv.
  unfold waypoint_step. destruct (position w) as [[x y] z]. rewrite bind_unfold.
  match goal with |- context [(if ?b then ?m1 else ?m2) tr] =>
    destruct ((if b then m1 else m2) tr) as [tr1 [st1|e]] eqn:E1 end; [|discriminate].
  assert (Hst : st1.1 = mode_code w /\ st1.2 = (mode_code w =? 50)).
  { destruct (Z.eqb_spec last_mode (mode_code w)) as [Heq|Hne]; cbn [negb] in E1.
    - injection E1 as <- <-. cbn. subst. auto.
    - rewrite bind_unfold in E1. unfold mode_change in E1. rewrite bind_lift in E1.
      destruct (py_getitem KInt mode_descriptions (mode_code w)); [|discriminate].
      rewrite bind_emit in E1.
      destruct (mode_code w =? 50); destruct lights_on; cbn [negb andb] in E1.
      + injection E1 as <- <-. auto.
      + unfold say in E1. rewrite bind_emit in E1. injection E1 as <- <-. auto.
      + unfold say in E1. rewrite bind_emit, bind_call in E1.
        destruct (respond dev _ _); [discriminate|]. injection E1 as <- <-. auto.
      + injection E1 as <- <-. auto. }
  rewrite bind_unfold.
  match goal with |- context [(if ?b then ?m1 else ?m2) tr1] =>
    destruct ((if b then m1 else m2) tr1) as [tr2 [[]|e]] end; [|discriminate].
  rewrite bind_call. destruct (respond dev _ _); [discriminate|].
  rewrite bind_emit. intros [= <- <-]. exact Hst.
Qed.

(** X14: the waypoint loop only appends to the trace, and the only commands
    it sends are setpoints, [set_matrix] and [follow_flight_mode]: it never
    arms, disarms, lands, or starts or stops offboard mode. *)
Theorem fly_sends_only_loop_commands wps tr tr' r :
  fly_all dev wps tr = (tr', r) ->
  exists new, tr' = tr ++ new /\ Forall loop_command (commands new).
Proof.
  intros H. unfold fly_all in H.
  destruct (adds_fly dev _ _ _ _ _ _ _ H) as (new & -> & Hnew).
  exists new. split; [reflexivity|]. apply loop_event_commands, Hnew.
Qed.

End RunFacts.

(** The mission [trace_then_hold] on a calm vehicle. *)
Lemma successful_run_commands_witness :
  (run float_of_plain int_of_plain calm mission_address (Ok trace_then_hold) []).2 = Ok () /\
  ((commands (run float_of_plain int_of_plain calm mission_address (Ok trace_then_hold) []).1
    = preflight_commands mission_address ++ [Disarm] /\
    exists code, In (Call OffboardStart (Some (OffboardError code)))
                    (run float_of_plain int_of_plain calm mission_address (Ok trace_then_hold) []).1)
   \/ exists rows wps loop,
        Ok trace_then_hold = Ok rows /\ parse_waypoints float_of_plain int_of_plain rows = Ok wps /\
        commands (run float_of_plain int_of_plain calm mission_address (Ok trace_then_hold) []).1
        = preflight_commands mission_address ++ loop ++ [Land; OffboardStop; Disarm] /\
        Forall loop_command loop /\
        setpoints (run float_of_plain int_of_plain calm mission_address (Ok trace_then_hold) []).1
        = (0, 0, 0, 0)%float :: (setpoint_of <$> wps)).
Proof.
  split; [vm_compute; reflexivity|].
  apply (successful_run_commands float_of_plain int_of_plain calm mission_address (Ok trace_then_hold)).
  vm_compute. reflexivity.
Defined.

(** A missing file on a calm vehicle. *)
Lemma unreadable_file_leaves_vehicle_flying_witness :
  (run float_of_plain int_of_plain calm mission_address (Raise OSError) []).2 = Raise OSError /\
  commands (run float_of_plain int_of_plain calm mission_address (Raise OSError) []).1
  = preflight_commands mission_address.
Proof.
  apply (unreadable_file_leaves_vehicle_flying float_of_plain int_of_plain calm mission_address
           (Raise OSError) OSError).
  - vm_compute. reflexivity.
  - vm_compute. tauto.
  - left. reflexivity.
Defined.


(** Mode 55. *)
Lemma unknown_mode_raises_key_error_witness :
  waypoint_step calm 1 0 (0%float, 0%float, 0%float, 0%float, 55) (0, false) []
  = ([], Raise (KeyError (KInt 55))).
Proof.
  apply (unknown_mode_raises_key_error calm 1 0 (0%float, 0%float, 0%float, 0%float, 55) 0 false []).
  - vm_compute. reflexivity.
  - discriminate.
Defined.

(** The first waypoint of a tracing segment. *)
Lemma lights_follow_tracing_mode_witness :
  waypoint_step calm 2 0 (0%float, 1.5%float, 0%float, (-20)%float, 50) (0, false) []
  = ((waypoint_step calm 2 0 (0%float, 1.5%float, 0%float, (-20)%float, 50) (0, false) []).1,
     Ok (50, true))
  /\ (50, true).1 = 50 /\ (50, true).2 = (50 =? 50).
Proof.
  split; [vm_compute; reflexivity|].
  apply (lights_follow_tracing_mode calm 2 0 (0%float, 1.5%float, 0%float, (-20)%float, 50)
           (0, false) []
           (waypoint_step calm 2 0 (0%float, 1.5%float, 0%float, (-20)%float, 50) (0, false) []).1
           (50, true) eq_refl).
  vm_compute. reflexivity.
Defined.

(** The mission [climb_then_trace] on a calm vehicle. *)
Lemma fly_sends_only_loop_commands_witness :
  exists new, (fly_all calm climb_then_trace []).1 = [] ++ new /\ Forall loop_command (commands new).
Proof.
  apply (fly_sends_only_loop_commands calm climb_then_trace []
           (fly_all calm climb_then_trace []).1 (fly_all calm climb_then_trace []).2).
  vm_compute. reflexivity.
Defined.

(** X15: [interpolate_color 0 T] is the first anchor for every [T <= 2^53],
    also for [T <= 1], where [max(1, T - 1)] keeps the division from
    failing. *)
Theorem interpolate_color_first_anchor T :
  T <= 2 ^ 53 -> interpolate_color 0 T = Ok (1, 0, 0)%float.
Proof.
  intros HT. destruct (Z_le_gt_dec 2 T) as [H2|H2].
  - apply interpolate_color_first_last. lia.
  - unfold interpolate_color. rewrite Z.max_l by lia. vm_compute. reflexivity.
Qed.

(** A mission of one waypoint, and of none. *)
Lemma interpolate_color_first_anchor_witness :
  interpolate_color 0 1 = Ok (1, 0, 0)%float /\ interpolate_color 0 0 = Ok (1, 0, 0)%float.
Proof.
  split; apply interpolate_color_first_anchor; vm_compute; discriminate.
Defined.

(** X16: what the executor does with a file as the exporter writes it: the
    first record has [index] and [x] but no [px], so, once [float] accepts
    the index text, parsing raises [KeyError] for [px]. *)
Theorem exported_file_raises_key_error float_of_str int_of_str str_int repr_float
        trajectory rec recs x :
  exported_records str_int repr_float trajectory = Ok (rec :: recs) ->
  float_of_str (str_int 0) = Ok x ->
  rec !! "index" = Some (str_int 0) /\ rec !! "x" <> None /\
  parse_waypoints float_of_str int_of_str (rec :: recs) = Raise (KeyError (KStr "px")).
Proof.
  unfold exported_records, export_rows. intros H Hx.
  apply res_bind_ok in H as (rows & Hrows & H).
  apply res_bind_ok in Hrows as (cols & _ & Hrows). injection Hrows as <-.
  destruct (zip3 (all_pts trajectory) (all_modes trajectory) cols) as [|[[p m] col] rest];
    [discriminate|].
  cbn [imap map] in H. injection H as <- _.
  assert (Hi : record_of str_int repr_float (csv_row 0 (p, m, col)) !! "index" = Some (str_int 0))
    by (vm_compute; reflexivity).
  assert (Hpx : record_of str_int repr_float (csv_row 0 (p, m, col)) !! "px" = None)
    by apply record_of_lacks_px.
  split; [exact Hi|]. split; [vm_compute; discriminate|].
  cbn [parse_waypoints]. unfold parse_row, py_getitem. unfold csv_row in Hi, Hpx.
  rewrite Hi. cbn [mbind res_bind]. rewrite Hx. cbn [mbind res_bind]. rewrite Hpx. reflexivity.
Qed.

(** One point at the origin in mode 70, integers printed in decimal. *)
Lemma exported_file_raises_key_error_witness :
  exists rec,
    exported_records pretty (fun _ => "0.0") [([(0, 0, 0)%float], 70)] = Ok [rec] /\
    parse_waypoints float_of_plain int_of_plain [rec] = Raise (KeyError (KStr "px")).
Proof.
  exists (record_of pretty (fun _ => "0.0") (csv_row 0 ((0, 0, 0)%float, 70, (0, 0, 0)%float))).
  assert (H : exported_records pretty (fun _ => "0.0") [([(0, 0, 0)%float], 70)]
              = Ok [record_of pretty (fun _ => "0.0") (csv_row 0 ((0, 0, 0)%float, 70, (0, 0, 0)%float))])
    by reflexivity.
  split; [exact H|].
  apply (exported_file_raises_key_error float_of_plain int_of_plain _ _ _ _ _ 0%float H).
  reflexivity.
Defined.

End ExecutorFacts.
